(** * ChronoTerra: the globe script [src/script.js]

    A shallow embedding of the script that drives the rotatable, zoomable
    globe: the zoom buttons, the texture loader and the era table, the
    pointer and touch handlers with their momentum, and the animation
    frame.

    JavaScript numbers are IEEE 754 binary64 values; they are modelled by
    Rocq's primitive [float]s, whose operations are the same binary64
    operations, so every handler below computes exactly what the script
    computes.  The three.js objects the script mutates ([camera.position.z],
    [earth.rotation], [earth.material]) are fields of the state; the calls
    the script makes into three.js, the DOM and the console are recorded in
    the order they happen. *)

From Stdlib Require Import ZArith Floats Lia Bool List.
From stdpp Require Import gmap strings.

Set Warnings "-inexact-float".

Local Open Scope float_scope.

(** ** JavaScript numbers and the [Math] built-ins the script calls *)

Definition is_pos_zero (x : float) : bool :=
  match classify x with PZero => true | _ => false end.

Definition is_neg_zero (x : float) : bool :=
  match classify x with NZero => true | _ => false end.

Module Math.

(** [Math.max(...values)]: NaN if any argument is NaN; otherwise the scan
    of ECMAScript, which starts from -Infinity and prefers +0 to -0. *)
Definition max (values : list float) : float :=
  if existsb is_nan values then nan
  else fold_left
         (fun highest number =>
            if is_pos_zero number && is_neg_zero highest then number
            else if highest <? number then number else highest)
         values neg_infinity.

(** [Math.min(...values)]: the dual scan, from +Infinity, preferring -0. *)
Definition min (values : list float) : float :=
  if existsb is_nan values then nan
  else fold_left
         (fun lowest number =>
            if is_neg_zero number && is_pos_zero lowest then number
            else if number <? lowest then number else lowest)
         values infinity.

Definition abs (x : float) : float := PrimFloat.abs x.

End Math.

(** ** JavaScript values and property lookup on an object literal *)

(** The values a property read on [eraTextures] can produce: a string (an
    own property), a built-in object or function (a property inherited from
    [Object.prototype]), or [undefined]. *)
Inductive Value :=
| undefined
| Str (s : string)
| Builtin (name : string).

(** [ToBoolean], as the [if] of the era handler applies it. *)
Definition ToBoolean (v : Value) : bool :=
  match v with
  | undefined => false
  | Str s => negb (String.eqb s "")
  | Builtin _ => true
  end.

(** The properties every object literal inherits from [Object.prototype]. *)
Definition Object_prototype : gmap string Value :=
  {[ "constructor" := Builtin "Object";
     "hasOwnProperty" := Builtin "Object.prototype.hasOwnProperty";
     "isPrototypeOf" := Builtin "Object.prototype.isPrototypeOf";
     "propertyIsEnumerable" := Builtin "Object.prototype.propertyIsEnumerable";
     "toLocaleString" := Builtin "Object.prototype.toLocaleString";
     "toString" := Builtin "Object.prototype.toString";
     "valueOf" := Builtin "Object.prototype.valueOf";
     "__proto__" := Builtin "Object.prototype";
     "__defineGetter__" := Builtin "Object.prototype.__defineGetter__";
     "__defineSetter__" := Builtin "Object.prototype.__defineSetter__";
     "__lookupGetter__" := Builtin "Object.prototype.__lookupGetter__";
     "__lookupSetter__" := Builtin "Object.prototype.__lookupSetter__" ]}.

(** [obj[key]] for an object literal [obj] with string-valued own
    properties: the own property if there is one, else the inherited one,
    else [undefined]. *)
Definition Get (own : gmap string string) (key : string) : Value :=
  match own !! key with
  | Some s => Str s
  | None =>
      match Object_prototype !! key with
      | Some v => v
      | None => undefined
      end
  end.

(** ** The state of the script *)

Record Point := { x : float; y : float }.

(** A decoded image handed to the success callback by the texture loader. *)
Inductive Texture := Image (source : string).

(** Calls the script makes into three.js, the DOM and the console. *)
Inductive Call :=
| textureLoader_load (url : Value)
| console_error (message : string) (error : string)
| renderer_render
| renderer_setSize (width height : float)
| camera_updateProjectionMatrix
| requestAnimationFrame
| preventDefault
| uncaught_TypeError.

(** The variables of the script and the properties of the three.js objects
    it writes, under their names in the script ([camera.position.z] is
    [camera_position_z], and so on).  The colour is the hexadecimal value
    handed to [color.set]; [needsUpdate] is the flag as the script sets it;
    [calls] lists the calls made so far, oldest first. *)
Record State := {
  currentZoom : float;
  camera_position_z : float;
  camera_aspect : float;
  earth_rotation_x : float;
  earth_rotation_y : float;
  earth_material_color : Z;
  earth_material_map : option Texture;
  earth_material_needsUpdate : bool;
  isDragging : bool;
  previousMousePosition : Point;
  momentumX : float;
  momentumY : float;
  calls : list Call
}.

Definition set_currentZoom v s :=
  {| currentZoom := v; camera_position_z := camera_position_z s;
     camera_aspect := camera_aspect s;
     earth_rotation_x := earth_rotation_x s; earth_rotation_y := earth_rotation_y s;
     earth_material_color := earth_material_color s;
     earth_material_map := earth_material_map s;
     earth_material_needsUpdate := earth_material_needsUpdate s;
     isDragging := isDragging s; previousMousePosition := previousMousePosition s;
     momentumX := momentumX s; momentumY := momentumY s; calls := calls s |}.

Definition set_camera_position_z v s :=
  {| currentZoom := currentZoom s; camera_position_z := v;
     camera_aspect := camera_aspect s;
     earth_rotation_x := earth_rotation_x s; earth_rotation_y := earth_rotation_y s;
     earth_material_color := earth_material_color s;
     earth_material_map := earth_material_map s;
     earth_material_needsUpdate := earth_material_needsUpdate s;
     isDragging := isDragging s; previousMousePosition := previousMousePosition s;
     momentumX := momentumX s; momentumY := momentumY s; calls := calls s |}.

Definition set_camera_aspect v s :=
  {| currentZoom := currentZoom s; camera_position_z := camera_position_z s;
     camera_aspect := v;
     earth_rotation_x := earth_rotation_x s; earth_rotation_y := earth_rotation_y s;
     earth_material_color := earth_material_color s;
     earth_material_map := earth_material_map s;
     earth_material_needsUpdate := earth_material_needsUpdate s;
     isDragging := isDragging s; previousMousePosition := previousMousePosition s;
     momentumX := momentumX s; momentumY := momentumY s; calls := calls s |}.

Definition set_earth_rotation_x v s :=
  {| currentZoom := currentZoom s; camera_position_z := camera_position_z s;
     camera_aspect := camera_aspect s;
     earth_rotation_x := v; earth_rotation_y := earth_rotation_y s;
     earth_material_color := earth_material_color s;
     earth_material_map := earth_material_map s;
     earth_material_needsUpdate := earth_material_needsUpdate s;
     isDragging := isDragging s; previousMousePosition := previousMousePosition s;
     momentumX := momentumX s; momentumY := momentumY s; calls := calls s |}.

Definition set_earth_rotation_y v s :=
  {| currentZoom := currentZoom s; camera_position_z := camera_position_z s;
     camera_aspect := camera_aspect s;
     earth_rotation_x := earth_rotation_x s; earth_rotation_y := v;
     earth_material_color := earth_material_color s;
     earth_material_map := earth_material_map s;
     earth_material_needsUpdate := earth_material_needsUpdate s;
     isDragging := isDragging s; previousMousePosition := previousMousePosition s;
     momentumX := momentumX s; momentumY := momentumY s; calls := calls s |}.

Definition set_earth_material_color v s :=
  {| currentZoom := currentZoom s; camera_position_z := camera_position_z s;
     camera_aspect := camera_aspect s;
     earth_rotation_x := earth_rotation_x s; earth_rotation_y := earth_rotation_y s;
     earth_material_color := v;
     earth_material_map := earth_material_map s;
     earth_material_needsUpdate := earth_material_needsUpdate s;
     isDragging := isDragging s; previousMousePosition := previousMousePosition s;
     momentumX := momentumX s; momentumY := momentumY s; calls := calls s |}.

Definition set_earth_material_map v s :=
  {| currentZoom := currentZoom s; camera_position_z := camera_position_z s;
     camera_aspect := camera_aspect s;
     earth_rotation_x := earth_rotation_x s; earth_rotation_y := earth_rotation_y s;
     earth_material_color := earth_material_color s;
     earth_material_map := v;
     earth_material_needsUpdate := earth_material_needsUpdate s;
     isDragging := isDragging s; previousMousePosition := previousMousePosition s;
     momentumX := momentumX s; momentumY := momentumY s; calls := calls s |}.

Definition set_earth_material_needsUpdate v s :=
  {| currentZoom := currentZoom s; camera_position_z := camera_position_z s;
     camera_aspect := camera_aspect s;
     earth_rotation_x := earth_rotation_x s; earth_rotation_y := earth_rotation_y s;
     earth_material_color := earth_material_color s;
     earth_material_map := earth_material_map s;
     earth_material_needsUpdate := v;
     isDragging := isDragging s; previousMousePosition := previousMousePosition s;
     momentumX := momentumX s; momentumY := momentumY s; calls := calls s |}.

Definition set_isDragging v s :=
  {| currentZoom := currentZoom s; camera_position_z := camera_position_z s;
     camera_aspect := camera_aspect s;
     earth_rotation_x := earth_rotation_x s; earth_rotation_y := earth_rotation_y s;
     earth_material_color := earth_material_color s;
     earth_material_map := earth_material_map s;
     earth_material_needsUpdate := earth_material_needsUpdate s;
     isDragging := v; previousMousePosition := previousMousePosition s;
     momentumX := momentumX s; momentumY := momentumY s; calls := calls s |}.

Definition set_previousMousePosition v s :=
  {| currentZoom := currentZoom s; camera_position_z := camera_position_z s;
     camera_aspect := camera_aspect s;
     earth_rotation_x := earth_rotation_x s; earth_rotation_y := earth_rotation_y s;
     earth_material_color := earth_material_color s;
     earth_material_map := earth_material_map s;
     earth_material_needsUpdate := earth_material_needsUpdate s;
     isDragging := isDragging s; previousMousePosition := v;
     momentumX := momentumX s; momentumY := momentumY s; calls := calls s |}.

Definition set_momentumX v s :=
  {| currentZoom := currentZoom s; camera_position_z := camera_position_z s;
     camera_aspect := camera_aspect s;
     earth_rotation_x := earth_rotation_x s; earth_rotation_y := earth_rotation_y s;
     earth_material_color := earth_material_color s;
     earth_material_map := earth_material_map s;
     earth_material_needsUpdate := earth_material_needsUpdate s;
     isDragging := isDragging s; previousMousePosition := previousMousePosition s;
     momentumX := v; momentumY := momentumY s; calls := calls s |}.

Definition set_momentumY v s :=
  {| currentZoom := currentZoom s; camera_position_z := camera_position_z s;
     camera_aspect := camera_aspect s;
     earth_rotation_x := earth_rotation_x s; earth_rotation_y := earth_rotation_y s;
     earth_material_color := earth_material_color s;
     earth_material_map := earth_material_map s;
     earth_material_needsUpdate := earth_material_needsUpdate s;
     isDragging := isDragging s; previousMousePosition := previousMousePosition s;
     momentumX := momentumX s; momentumY := v; calls := calls s |}.

(** A call into the environment is appended to the record of calls. *)
Definition call c s :=
  {| currentZoom := currentZoom s; camera_position_z := camera_position_z s;
     camera_aspect := camera_aspect s;
     earth_rotation_x := earth_rotation_x s; earth_rotation_y := earth_rotation_y s;
     earth_material_color := earth_material_color s;
     earth_material_map := earth_material_map s;
     earth_material_needsUpdate := earth_material_needsUpdate s;
     isDragging := isDragging s; previousMousePosition := previousMousePosition s;
     momentumX := momentumX s; momentumY := momentumY s;
     calls := calls s ++ [c] |}.

(** ** Constants of the script *)

Definition rotationSpeed : float := 0.009.
Definition momentumDecay : float := 0.01.
Definition maxMomentum : float := 0.15.
Definition sensitivity : float := 0.009.

Definition eraTextures : gmap string string :=
  {[ "modern" := "textures/earth_night.jpg";
     "ancient" := "textures/earth old.jpg";
     "prehistoric" := "dinoera.jpg";
     "dinosaurs" := "textures/clouds.png";
     "formation" := "textures/eartrh_bump.jpg" ]}.

(** ** Zoom buttons *)

Definition zoomIn (s : State) : State :=
  let s := set_currentZoom (Math.max [0.5; currentZoom s - 0.3]) s in
  set_camera_position_z (currentZoom s) s.

Definition zoomOut (s : State) : State :=
  let s := set_currentZoom (Math.min [3; currentZoom s + 0.3]) s in
  set_camera_position_z (currentZoom s) s.

(** ** Viewport *)

Definition resizeRenderer (innerWidth : float) (s : State) : State :=
  let size := Math.min [400; innerWidth * 0.8] in
  let s := call (renderer_setSize size size) s in
  let s := set_camera_aspect 1 s in
  call camera_updateProjectionMatrix s.

(** ** Texture loader *)

(** The three callbacks [loadTexture] hands to [textureLoader.load]. *)
Definition onLoad (texture : Texture) (s : State) : State :=
  let s := set_earth_material_map (Some texture) s in
  set_earth_material_needsUpdate true s.

Definition onProgress (s : State) : State := s.

Definition onError (error : string) (s : State) : State :=
  let s := call (console_error "Error loading texture:" error) s in
  let s := set_earth_material_color 0x3366cc%Z s in
  set_earth_material_needsUpdate true s.

Definition loadTexture (url : Value) (s : State) : State :=
  let s := set_earth_material_color 0x333333%Z s in
  call (textureLoader_load url) s.

(** ** Era selection *)

Definition eraSelector_change (value : string) (s : State) : State :=
  let selectedEra := value in
  if ToBoolean (Get eraTextures selectedEra)
  then loadTexture (Get eraTextures selectedEra) s
  else s.

(** ** Pointer and touch handlers *)

Definition mousedown (clientX clientY : float) (s : State) : State :=
  let s := set_isDragging true s in
  set_previousMousePosition {| x := clientX; y := clientY |} s.

Definition mousemove (clientX clientY : float) (s : State) : State :=
  if isDragging s then
    let deltaX := clientX - x (previousMousePosition s) in
    let deltaY := clientY - y (previousMousePosition s) in
    let s := set_momentumX
               (Math.min [maxMomentum; Math.max [- maxMomentum; deltaX * sensitivity]]) s in
    let s := set_momentumY
               (Math.min [maxMomentum; Math.max [- maxMomentum; deltaY * sensitivity]]) s in
    let s := set_earth_rotation_y (earth_rotation_y s + momentumX s) s in
    let s := set_earth_rotation_x (earth_rotation_x s + momentumY s) s in
    set_previousMousePosition {| x := clientX; y := clientY |} s
  else s.

Definition mouseup (s : State) : State := set_isDragging false s.

Definition mouseleave (s : State) : State := set_isDragging false s.

(** A touch event carries the list [e.touches] of the active touches, each
    with its [clientX] and [clientY]; reading [e.touches[0].clientX] on an
    empty list throws, which ends the handler where it stands. *)
Definition touchstart (touches : list Point) (s : State) : State :=
  let s := set_isDragging true s in
  match touches with
  | t :: _ =>
      let s := set_previousMousePosition {| x := x t; y := y t |} s in
      call preventDefault s
  | [] => call uncaught_TypeError s
  end.

Definition touchmove (touches : list Point) (s : State) : State :=
  if isDragging s then
    match touches with
    | t :: _ =>
        let deltaX := x t - x (previousMousePosition s) in
        let deltaY := y t - y (previousMousePosition s) in
        let s := set_momentumX
                   (Math.min [maxMomentum; Math.max [- maxMomentum; deltaX * sensitivity]]) s in
        let s := set_momentumY
                   (Math.min [maxMomentum; Math.max [- maxMomentum; deltaY * sensitivity]]) s in
        let s := set_earth_rotation_y (earth_rotation_y s + momentumX s) s in
        let s := set_earth_rotation_x (earth_rotation_x s + momentumY s) s in
        let s := set_previousMousePosition {| x := x t; y := y t |} s in
        call preventDefault s
    | [] => call uncaught_TypeError s
    end
  else s.

Definition touchend (s : State) : State := set_isDragging false s.

(** ** Animation frame *)

Definition animate (s : State) : State :=
  let s := call requestAnimationFrame s in
  let s :=
    if negb (isDragging s) then
      let s := set_earth_rotation_y (earth_rotation_y s + momentumX s) s in
      let s := set_earth_rotation_x (earth_rotation_x s + momentumY s) s in
      let s := set_momentumX (momentumX s * momentumDecay) s in
      let s := set_momentumY (momentumY s * momentumDecay) s in
      if (Math.abs (momentumX s) <? 0.001) && (Math.abs (momentumY s) <? 0.001)
      then set_earth_rotation_y (earth_rotation_y s + rotationSpeed) s
      else s
    else s in
  call renderer_render s.

(** ** Start-up and the event loop *)

(** The state once the scene is constructed: three.js creates the mesh
    unrotated, with a white material and no map; the script places the
    camera at 1.8 and declares its own variables. *)
Definition constructed : State :=
  {| currentZoom := 1.8; camera_position_z := 1.8; camera_aspect := 1;
     earth_rotation_x := 0; earth_rotation_y := 0;
     earth_material_color := 0xffffff%Z;
     earth_material_map := None;
     earth_material_needsUpdate := false;
     isDragging := false; previousMousePosition := {| x := 0; y := 0 |};
     momentumX := 0; momentumY := 0; calls := [] |}.

(** The top level of the script when the scene is constructed without an
    exception, in its order: first resize, initial texture, first frame.
    Of the calls of the top level, [calls] holds the ones the listeners
    make as well; when construction throws, the script replaces the canvas
    by a message and registers no listener, so no event is ever
    dispatched. *)
Definition startup (innerWidth : float) : State :=
  let s := resizeRenderer innerWidth constructed in
  let s := loadTexture (Get eraTextures "modern") s in
  animate s.

(** What the browser and the texture loader deliver to the listeners the
    script registered. *)
Inductive Event :=
| zoomInBtn_click
| zoomOutBtn_click
| window_resize (innerWidth : float)
| canvas_mousedown (clientX clientY : float)
| canvas_mousemove (clientX clientY : float)
| canvas_mouseup
| canvas_mouseleave
| canvas_touchstart (touches : list Point)
| canvas_touchmove (touches : list Point)
| canvas_touchend
| animation_frame
| eraSelector_onchange (value : string)
| texture_loaded (texture : Texture)
| texture_progress
| texture_failed (error : string).

Definition dispatch (e : Event) (s : State) : State :=
  match e with
  | zoomInBtn_click => zoomIn s
  | zoomOutBtn_click => zoomOut s
  | window_resize w => resizeRenderer w s
  | canvas_mousedown cx cy => mousedown cx cy s
  | canvas_mousemove cx cy => mousemove cx cy s
  | canvas_mouseup => mouseup s
  | canvas_mouseleave => mouseleave s
  | canvas_touchstart ts => touchstart ts s
  | canvas_touchmove ts => touchmove ts s
  | canvas_touchend => touchend s
  | animation_frame => animate s
  | eraSelector_onchange v => eraSelector_change v s
  | texture_loaded t => onLoad t s
  | texture_progress => onProgress s
  | texture_failed err => onError err s
  end.

Definition run (events : list Event) (s : State) : State :=
  fold_left (fun s e => dispatch e s) events s.

(** Pointer coordinates are DOM [double]s: finite numbers, never NaN or an
    infinity. *)
Definition finite_point (p : Point) : bool := is_finite (x p) && is_finite (y p).

Definition pointer_finite (e : Event) : bool :=
  match e with
  | canvas_mousedown cx cy | canvas_mousemove cx cy => is_finite cx && is_finite cy
  | canvas_touchstart ts | canvas_touchmove ts => forallb finite_point ts
  | _ => true
  end.

(** ** Notions the specification uses *)

(** [clamp v lo hi] as the specification writes it. *)
Definition clamp (v lo hi : float) : float :=
  if v <? lo then lo else if hi <? v then hi else v.

(** The drag-move transition as the specification states it: the delta to
    the last pointer position, each momentum the clamped scaled delta, the
    rotation advanced at once, the pointer position updated. *)
Definition spec_drag_move (position : Point) (s : State) : State :=
  let deltaX := x position - x (previousMousePosition s) in
  let deltaY := y position - y (previousMousePosition s) in
  let mX := clamp (deltaX * 0.009) (- 0.15) 0.15 in
  let mY := clamp (deltaY * 0.009) (- 0.15) 0.15 in
  {| currentZoom := currentZoom s;
     camera_position_z := camera_position_z s;
     camera_aspect := camera_aspect s;
     earth_rotation_x := earth_rotation_x s + mY;
     earth_rotation_y := earth_rotation_y s + mX;
     earth_material_color := earth_material_color s;
     earth_material_map := earth_material_map s;
     earth_material_needsUpdate := earth_material_needsUpdate s;
     isDragging := isDragging s;
     previousMousePosition := position;
     momentumX := mX;
     momentumY := mY;
     calls := calls s |}.

(** [lo <= v <= hi] on numbers. *)
Definition within (lo hi v : float) : bool := (lo <=? v) && (v <=? hi).

(** The momentum bound of the data model. *)
Definition momentum_bounded (s : State) : bool :=
  (Math.abs (momentumX s) <=? maxMomentum) && (Math.abs (momentumY s) <=? maxMomentum).

(** What every handler preserves: the momenta are within the bound and the
    last pointer position is finite. *)
Definition momentum_invariant (s : State) : Prop :=
  momentum_bounded s = true /\ finite_point (previousMousePosition s) = true.

(** Whether the frame that starts in [s] takes the auto-rotation branch:
    no drag is active and both momenta, once decayed, are below 0.001. *)
Definition auto_rotates (s : State) : bool :=
  negb (isDragging s)
  && (Math.abs (momentumX s * momentumDecay) <? 0.001)
  && (Math.abs (momentumY s * momentumDecay) <? 0.001).

(** The globe right after a drag of (100, 100) is released: full momentum on
    both axes, no drag active. *)
Definition flung : State :=
  run [canvas_mousedown 0 0; canvas_mousemove 100 100; canvas_mouseup] constructed.


(** ** Binary64 rounding, as the proofs below read it *)

(** The second half of [binary_round_aux]: the rounded mantissa [r] at
    exponent [e] is renormalised and packed. *)
Definition round_finish (s : bool) (r e : Z) : spec_float :=
  let n2 := Z.max 0 (fexp prec emax (Zdigits2 r + e) - e) in
  match r / 2 ^ n2 with
  | Z0 => S754_zero s
  | Zpos p => if e + n2 <=? emax - prec then S754_finite s p (e + n2) else S754_infinity s
  | Zneg _ => S754_nan
  end%Z.

(** [x] is a zero, or a finite number whose exponent is at most [E]. *)
Definition exponent_le (E : Z) (x : float) : Prop :=
  match Prim2SF x with
  | S754_zero _ => True
  | S754_finite _ _ e => (e <= E)%Z
  | _ => False
  end.

(** ** Views of the events, for the properties of whole runs *)

(** The drag flag as the events alone decide it: a press or a touch start
    raises it, a release, a leave or a touch end lowers it. *)
Definition drag_flag (dragging : bool) (e : Event) : bool :=
  match e with
  | canvas_mousedown _ _ | canvas_touchstart _ => true
  | canvas_mouseup | canvas_mouseleave | canvas_touchend => false
  | _ => dragging
  end.

Definition is_zoom_click (e : Event) : bool :=
  match e with zoomInBtn_click | zoomOutBtn_click => true | _ => false end.

(** The events whose handlers write the rotation or the momenta. *)
Definition moves_globe (e : Event) : bool :=
  match e with
  | canvas_mousemove _ _ | canvas_touchmove _ | animation_frame => true
  | _ => false
  end.

(** The events whose handlers can write the material colour. *)
Definition writes_colour (e : Event) : bool :=
  match e with
  | eraSelector_onchange _ | texture_failed _ => true
  | _ => false
  end.

(** A distance of the zoom range in units of 2^-54 (0 outside the positive
    finite numbers). *)
Definition zoom_units (d : float) : Z :=
  match Prim2SF d with
  | S754_finite false m e => (Zpos m * 2 ^ (e + 54))%Z
  | _ => 0%Z
  end.

Definition is_render (c : Call) : bool :=
  match c with renderer_render => true | _ => false end.

Definition is_frame (e : Event) : bool :=
  match e with animation_frame => true | _ => false end.

(** * Properties *)

(** ** Rounding of binary64 mantissas *)

Section Rounding.
Local Open Scope Z_scope.

Lemma fexp_binary64 k : fexp prec emax k = Z.max (k - 53) (-1074).
Proof. reflexivity. Qed.

Lemma iter_pos_nat {A} (f : A -> A) p a :
  SpecFloat.iter_pos f p a = Nat.iter (Pos.to_nat p) f a.
Proof.
  revert a; induction p; intros a; cbn [SpecFloat.iter_pos].
  - rewrite !IHp, Pos2Nat.inj_xI, <- Nat.iter_add, <- Nat.iter_succ_r.
    f_equal; lia.
  - rewrite !IHp, Pos2Nat.inj_xO, <- Nat.iter_add. f_equal; lia.
  - reflexivity.
Qed.

Lemma shr_1_div2 mrs : 0 <= shr_m mrs -> shr_m (shr_1 mrs) = shr_m mrs / 2.
Proof.
  destruct mrs as [m r s]; cbn [shr_m shr_1].
  destruct m as [|[p|p|]|p]; cbn [shr_m]; intros H;
    try (Z.div_mod_to_equations; lia).
Qed.

Lemma shr_iter_div k mrs :
  0 <= shr_m mrs ->
  shr_m (Nat.iter k shr_1 mrs) = shr_m mrs / 2 ^ Z.of_nat k.
Proof.
  intros Hm. induction k as [|k IH].
  - cbn. now rewrite Z.div_1_r.
  - rewrite Nat.iter_succ, shr_1_div2, IH.
    + rewrite Nat2Z.inj_succ, Z.pow_succ_r by lia.
      rewrite Z.div_div by lia. f_equal; lia.
    + rewrite IH. apply Z.div_pos; lia.
Qed.

Lemma shr_fexp_div m e l :
  0 <= m ->
  let n := Z.max 0 (fexp prec emax (Zdigits2 m + e) - e) in
  shr_m (fst (shr_fexp prec emax m e l)) = m / 2 ^ n /\
  snd (shr_fexp prec emax m e l) = e + n /\
  (n = 0 -> fst (shr_fexp prec emax m e l) = shr_record_of_loc m l).
Proof.
  intros Hm n. unfold shr_fexp, shr. subst n.
  assert (Hrec : shr_m (shr_record_of_loc m l) = m)
    by (destruct l as [|[]]; reflexivity).
  destruct (fexp prec emax (Zdigits2 m + e) - e) as [|p|p] eqn:E; cbn [fst snd].
  - rewrite Hrec. cbn. rewrite Z.div_1_r. repeat split; lia.
  - rewrite iter_pos_nat, shr_iter_div, Hrec by lia.
    rewrite positive_nat_Z. rewrite Z.max_r by lia. repeat split; lia.
  - rewrite Hrec. rewrite Z.max_l by lia. cbn. rewrite Z.div_1_r.
    repeat split; lia.
Qed.

Lemma round_nearest_even_range mrs :
  shr_m mrs <= round_nearest_even (shr_m mrs) (loc_of_shr_record mrs) <= shr_m mrs + 1.
Proof.
  destruct mrs as [m [] []]; cbn; try destruct (Z.even m); lia.
Qed.

Lemma binary_round_aux_exact s m e :
  let n := Z.max 0 (fexp prec emax (Zdigits2 (Zpos m) + e) - e) in
  exists r,
    Zpos m / 2 ^ n <= r <= Zpos m / 2 ^ n + 1 /\
    (n = 0 -> r = Zpos m) /\
    binary_round_aux prec emax s (Zpos m) e loc_Exact = round_finish s r (e + n).
Proof.
  intros n. unfold binary_round_aux.
  destruct (shr_fexp_div (Zpos m) e loc_Exact) as (Hq & He & H0); [lia|].
  fold n in Hq, He, H0.
  destruct (shr_fexp prec emax (Zpos m) e loc_Exact) as [mrs e'] eqn:E1.
  cbn [fst snd] in Hq, He, H0. subst e'.
  set (r := round_nearest_even (shr_m mrs) (loc_of_shr_record mrs)).
  assert (Hr : Zpos m / 2 ^ n <= r <= Zpos m / 2 ^ n + 1).
  { rewrite <- Hq. apply round_nearest_even_range. }
  assert (Hr0 : 0 <= r).
  { assert (0 <= Zpos m / 2 ^ n) by (apply Z.div_pos; lia). lia. }
  exists r. split; [exact Hr|]. split.
  { intros Hn. subst r. rewrite (H0 Hn). reflexivity. }
  destruct (shr_fexp_div r (e + n) loc_Exact Hr0) as (Hq2 & He2 & _).
  destruct (shr_fexp prec emax r (e + n) loc_Exact) as [mrs2 e2] eqn:E2.
  cbn [fst snd] in Hq2, He2. unfold round_finish.
  rewrite Hq2, He2. reflexivity.
Qed.

Lemma digits2_pos_size p : digits2_pos p = Pos.size p.
Proof. induction p; cbn; congruence. Qed.

Lemma Zdigits2_log2 p : Zdigits2 (Zpos p) = Z.log2 (Zpos p) + 1.
Proof.
  cbn [Zdigits2]. rewrite digits2_pos_size.
  destruct p; cbn [Z.log2 Pos.size]; lia.
Qed.

Lemma Zdigits2_nonneg v : 0 <= v -> 0 <= Zdigits2 v.
Proof. destruct v; cbn; lia. Qed.

(** [v < 2^k] bounds the number of digits from above. *)
Lemma Zdigits2_le v k : 0 <= v -> 0 <= k -> v < 2 ^ k -> Zdigits2 v <= k.
Proof.
  intros Hv Hk H. destruct v as [|p|p]; [cbn; lia| |lia].
  rewrite Zdigits2_log2. apply Z.log2_lt_pow2 in H; lia.
Qed.

(** [2^k <= v] bounds it from below. *)
Lemma Zdigits2_gt v k : 0 <= k -> 2 ^ k <= v -> k < Zdigits2 v.
Proof.
  intros Hk H. assert (0 < 2 ^ k) by (apply Z.pow_pos_nonneg; lia).
  destruct v as [|p|p]; [lia| |lia].
  rewrite Zdigits2_log2. apply Z.log2_le_pow2 in H; lia.
Qed.

Lemma Zdigits2_bounds p :
  2 ^ (Zdigits2 (Zpos p) - 1) <= Zpos p < 2 ^ Zdigits2 (Zpos p).
Proof.
  rewrite Zdigits2_log2. replace (Z.log2 (Z.pos p) + 1 - 1) with (Z.log2 (Z.pos p)) by lia.
  pose proof (Z.log2_spec (Zpos p) ltac:(lia)) as H.
  replace (Z.log2 (Z.pos p) + 1) with (Z.succ (Z.log2 (Z.pos p))) by lia. exact H.
Qed.

Lemma Zdigits2_mul p q :
  Zdigits2 (Zpos (p * q)) <= Zdigits2 (Zpos p) + Zdigits2 (Zpos q).
Proof.
  pose proof (Zdigits2_bounds p) as [_ Hp]. pose proof (Zdigits2_bounds q) as [_ Hq].
  pose proof (Zdigits2_nonneg (Zpos p) ltac:(lia)).
  pose proof (Zdigits2_nonneg (Zpos q) ltac:(lia)).
  apply Zdigits2_le; [lia|lia|].
  rewrite Pos2Z.inj_mul, Z.pow_add_r by lia.
  apply Z.mul_lt_mono_nonneg; lia.
Qed.

(** Digits of a quotient by a power of two, and of its successor. *)
Lemma Zdigits2_shifted v n r :
  0 <= v -> 0 <= n -> 0 <= r <= v / 2 ^ n + 1 ->
  Zdigits2 r + n <= Z.max (Zdigits2 v) n + 1.
Proof.
  intros Hv Hn Hr.
  pose proof (Zdigits2_nonneg v Hv) as Hd.
  assert (Hlt : v < 2 ^ Zdigits2 v).
  { destruct v as [|p|p]; [cbn; lia| apply Zdigits2_bounds | lia]. }
  assert (Hq : v / 2 ^ n < 2 ^ (Z.max (Zdigits2 v) n - n)).
  { assert (0 < 2 ^ n) by (apply Z.pow_pos_nonneg; lia).
    apply Z.div_lt_upper_bound; [lia|].
    rewrite <- Z.pow_add_r by lia.
    replace (n + (Z.max (Zdigits2 v) n - n)) with (Z.max (Zdigits2 v) n) by lia.
    eapply Z.lt_le_trans; [exact Hlt|]. apply Z.pow_le_mono_r; lia. }
  assert (Zdigits2 r <= Z.max (Zdigits2 v) n - n + 1); [|lia].
  apply Zdigits2_le; [lia|lia|].
  rewrite Z.pow_add_r, Z.pow_1_r by lia.
  assert (0 < 2 ^ (Z.max (Zdigits2 v) n - n)) by (apply Z.pow_pos_nonneg; lia).
  lia.
Qed.

(** What [round_finish] returns on a nonnegative mantissa. *)
Lemma round_finish_cases s r e :
  0 <= r ->
  let n2 := Z.max 0 (fexp prec emax (Zdigits2 r + e) - e) in
  (r / 2 ^ n2 = 0 /\ round_finish s r e = S754_zero s) \/
  (exists p, r / 2 ^ n2 = Zpos p /\
     ((e + n2 <= 971 /\ round_finish s r e = S754_finite s p (e + n2)) \/
      (971 < e + n2 /\ round_finish s r e = S754_infinity s))).
Proof.
  intros Hr n2. unfold round_finish. fold n2.
  assert (Hq : 0 <= r / 2 ^ n2) by (apply Z.div_pos; [lia|apply Z.pow_pos_nonneg; lia]).
  destruct (r / 2 ^ n2) as [|p|p]; [now left| |lia].
  right. exists p. split; [reflexivity|].
  change (emax - prec) with 971.
  destruct (Z.leb_spec (e + n2) 971); [left|right]; split; auto; lia.
Qed.

(** The exponent of a rounded product or sum never exceeds what the number
    of digits of the exact mantissa allows. *)
Lemma binary_round_aux_exponent s m e :
  match binary_round_aux prec emax s (Zpos m) e loc_Exact with
  | S754_zero s' => s' = s
  | S754_finite s' _ e' =>
      s' = s /\ e' <= Z.max e (Z.max (Zdigits2 (Zpos m) + e - 52) (-1074))
  | S754_infinity s' =>
      s' = s /\ 971 < Z.max e (Z.max (Zdigits2 (Zpos m) + e - 52) (-1074))
  | S754_nan => False
  end.
Proof.
  destruct (binary_round_aux_exact s m e) as (r & Hr & _ & ->).
  set (n := Z.max 0 (fexp prec emax (Zdigits2 (Z.pos m) + e) - e)) in *.
  assert (Hq : 0 <= Zpos m / 2 ^ n) by (apply Z.div_pos; [lia|apply Z.pow_pos_nonneg; lia]).
  pose proof (Zdigits2_shifted (Zpos m) n r ltac:(lia) ltac:(lia) ltac:(lia)) as Hd.
  pose proof (Zdigits2_nonneg (Zpos m) ltac:(lia)) as Hdm.
  assert (Hn : e + n = Z.max e (Z.max (Zdigits2 (Zpos m) + e - 53) (-1074))).
  { subst n. rewrite fexp_binary64. lia. }
  destruct (round_finish_cases s r (e + n) ltac:(lia)) as [[_ ->]|(p & _ & [[H ->]|[H ->]])];
    [reflexivity| |]; clearbody n; rewrite ?fexp_binary64 in H; rewrite ?fexp_binary64;
    split; auto; clear Hr Hq; lia.
Qed.
End Rounding.

(** ** Binary64 numbers through their specification *)


(** Comparisons of integers and positives in the goal, turned into facts
    about integers. *)
Lemma Pos_compare_cont_spec a b :
  CompareSpec (Zpos a = Zpos b) (Zpos a < Zpos b)%Z (Zpos b < Zpos a)%Z
    (Pos.compare_cont Eq a b).
Proof. exact (Z.compare_spec (Zpos a) (Zpos b)). Qed.

Ltac compare_cases :=
  repeat match goal with
    | |- context [Z.compare ?a ?b] => destruct (Z.compare_spec a b)
    | |- context [Pos.compare_cont Eq ?a ?b] => destruct (Pos_compare_cont_spec a b)
    end.

(** Replace [Prim2SF] of a closed number by its value. *)
Ltac sf_const c :=
  let v := eval vm_compute in (Prim2SF c) in
  let H := fresh "K" in
  assert (H : Prim2SF c = v) by (vm_compute; reflexivity);
  rewrite ?H in *; clear H.

Ltac sf_unfold :=
  unfold SFleb, SFltb, SFeqb, SFcompare, SFabs, SFopp in *.

(** Settle a goal made of comparisons of [Prim2SF v] with constants: the
    cases that remain after computing are closed by the facts collected,
    either because the two sides agree or because the facts clash. *)
Ltac sf_close :=
  repeat match goal with
    | H : Zpos _ = Zpos _ |- _ => apply Pos2Z.inj in H
    end;
  first [ discriminate | contradiction | exact I | reflexivity
        | subst; reflexivity | exfalso; timeout 20 lia | timeout 20 lia ].

Ltac sf_cases v :=
  destruct (Prim2SF v) as [[]|[]| |[] ? ?]; sf_unfold; compare_cases; intros;
  sf_close.

Lemma SFcompare_refl x : x <> S754_nan -> SFcompare x x = Some Eq.
Proof.
  destruct x as [s|s| |s m e]; cbn; intros H; try congruence.
  - now destruct s.
  - rewrite Z.compare_refl, Pos.compare_cont_refl. now destruct s.
Qed.

Lemma is_nan_spec v :
  is_nan v = match Prim2SF v with S754_nan => true | _ => false end.
Proof.
  unfold is_nan. rewrite FloatAxioms.eqb_spec. unfold SFeqb.
  destruct (Prim2SF v) eqn:E; try (rewrite SFcompare_refl by congruence); reflexivity.
Qed.

Lemma is_finite_spec v :
  is_finite v =
  match Prim2SF v with S754_zero _ | S754_finite _ _ _ => true | _ => false end.
Proof.
  unfold is_finite, is_infinity. rewrite is_nan_spec, FloatAxioms.eqb_spec, FloatAxioms.abs_spec.
  destruct (Prim2SF v) as [s|s| |s m e]; reflexivity.
Qed.

Lemma is_pos_zero_spec v :
  is_pos_zero v = match Prim2SF v with S754_zero false => true | _ => false end.
Proof.
  unfold is_pos_zero. rewrite FloatAxioms.classify_spec. unfold SF64classify, SFclassify.
  destruct (Prim2SF v) as [[]|[]| |[] m e]; try reflexivity;
    destruct (Z.eqb _ _); reflexivity.
Qed.

Lemma is_neg_zero_spec v :
  is_neg_zero v = match Prim2SF v with S754_zero true => true | _ => false end.
Proof.
  unfold is_neg_zero. rewrite FloatAxioms.classify_spec. unfold SF64classify, SFclassify.
  destruct (Prim2SF v) as [[]|[]| |[] m e]; try reflexivity;
    destruct (Z.eqb _ _); reflexivity.
Qed.

Lemma nan_unique v : is_nan v = true -> v = nan.
Proof.
  rewrite is_nan_spec. intros H. apply Prim2SF_inj.
  destruct (Prim2SF v); try discriminate. reflexivity.
Qed.

(** [Math.max] and [Math.min] on two numbers. *)
Lemma Math_max_pair a b :
  is_nan a = false -> is_nan b = false ->
  Math.max [a; b] =
  if is_pos_zero b && is_neg_zero a then b else if a <? b then b else a.
Proof.
  intros Ha Hb. unfold Math.max. cbn [existsb fold_left].
  rewrite Ha, Hb. cbn [orb].
  replace (is_neg_zero neg_infinity) with false by reflexivity.
  rewrite andb_false_r.
  assert (H : (if neg_infinity <? a then a else neg_infinity) = a).
  { rewrite FloatAxioms.ltb_spec. rewrite is_nan_spec in Ha.
    destruct (Prim2SF a) as [s|[]| |s m e] eqn:E; try reflexivity; try discriminate.
    apply Prim2SF_inj. now rewrite E. }
  now rewrite H.
Qed.

Lemma Math_min_pair a b :
  is_nan a = false -> is_nan b = false ->
  Math.min [a; b] =
  if is_neg_zero b && is_pos_zero a then b else if b <? a then b else a.
Proof.
  intros Ha Hb. unfold Math.min. cbn [existsb fold_left].
  rewrite Ha, Hb. cbn [orb].
  replace (is_pos_zero infinity) with false by reflexivity.
  rewrite andb_false_r.
  assert (H : (if a <? infinity then a else infinity) = a).
  { rewrite FloatAxioms.ltb_spec. rewrite is_nan_spec in Ha.
    destruct (Prim2SF a) as [s|[]| |s m e] eqn:E; try reflexivity; try discriminate.
    apply Prim2SF_inj. now rewrite E. }
  now rewrite H.
Qed.


(** The composition of [Math.min] and [Math.max] in the drag handlers is
    the [clamp] of the specification, on every number and on NaN. *)
Lemma clamp_momentum v :
  Math.min [maxMomentum; Math.max [- maxMomentum; v]]
  = clamp v (- maxMomentum) maxMomentum.
Proof.
  destruct (is_nan v) eqn:Hnan.
  - apply nan_unique in Hnan. subst v. reflexivity.
  - rewrite Math_max_pair by (reflexivity || assumption).
    replace (is_neg_zero (- maxMomentum)) with false by reflexivity.
    rewrite andb_false_r. unfold clamp.
    assert (Hu : is_nan (if - maxMomentum <? v then v else - maxMomentum) = false)
      by (destruct (- maxMomentum <? v); [assumption|reflexivity]).
    rewrite Math_min_pair by (reflexivity || assumption).
    replace (is_pos_zero maxMomentum) with false by reflexivity.
    rewrite andb_false_r. clear Hu.
    destruct (- maxMomentum <? v) eqn:E1.
    + destruct (v <? maxMomentum) eqn:E2, (v <? - maxMomentum) eqn:E3,
        (maxMomentum <? v) eqn:E4; try reflexivity;
        exfalso + apply Prim2SF_inj;
        revert E1 E2 E3 E4; rewrite !FloatAxioms.ltb_spec;
        sf_const maxMomentum; sf_const (- maxMomentum); sf_cases v.
    + replace (- maxMomentum <? maxMomentum) with true by reflexivity.
      destruct (v <? - maxMomentum) eqn:E3; [reflexivity|].
      destruct (maxMomentum <? v) eqn:E4; [exfalso|apply Prim2SF_inj];
        revert Hnan E1 E3 E4; rewrite is_nan_spec, !FloatAxioms.ltb_spec;
        sf_const maxMomentum; sf_const (- maxMomentum); sf_cases v.
Qed.

(** The clamped momentum is within the bound. *)
Lemma clamp_bounded v :
  is_nan v = false ->
  (abs (clamp v (- maxMomentum) maxMomentum) <=? maxMomentum) = true.
Proof.
  intros Hnan. unfold clamp.
  destruct (v <? - maxMomentum) eqn:E1; [reflexivity|].
  destruct (maxMomentum <? v) eqn:E2; [reflexivity|].
  revert Hnan E1 E2.
  rewrite is_nan_spec, !FloatAxioms.ltb_spec, FloatAxioms.leb_spec, FloatAxioms.abs_spec.
  sf_const maxMomentum; sf_const (- maxMomentum). sf_cases v.
Qed.

Section Binary64.
Local Open Scope Z_scope.

(** What validity says of a finite number: at most 53 digits, exactly 53
    above the smallest exponent. *)
Lemma valid_finite v s m e :
  Prim2SF v = S754_finite s m e ->
  Zdigits2 (Zpos m) <= 53 /\ -1074 <= e <= 971 /\
  (-1074 < e -> Zdigits2 (Zpos m) = 53).
Proof.
  intros E. pose proof (Prim2SF_valid v) as H. rewrite E in H.
  cbn [valid_binary] in H. unfold bounded, canonical_mantissa in H.
  apply andb_prop in H as [H1 H2].
  apply Z.eqb_eq in H1. apply Z.leb_le in H2.
  rewrite fexp_binary64 in H1. change (emax - prec) with 971 in H2.
  cbn [Zdigits2]. lia.
Qed.

Lemma exponent_le_mono E E' v : E <= E' -> exponent_le E v -> exponent_le E' v.
Proof.
  unfold exponent_le. destruct (Prim2SF v); auto. lia.
Qed.

(** One decay step lowers the exponent by at least five. *)
Lemma decay_exponent E v :
  exponent_le E v -> exponent_le (Z.max (E - 5) (-1074)) (v * momentumDecay)%float.
Proof.
  unfold exponent_le. rewrite mul_spec. sf_const momentumDecay.
  destruct (Prim2SF v) as [s|s| |s m e] eqn:Ev; try contradiction; intros HE.
  - exact I.
  - destruct (valid_finite v s m e Ev) as (Hd & He & _).
    unfold SF64mul, SFmul.
    pose proof (binary_round_aux_exponent (xorb s false)
                  (m * 5764607523034235) (e + -59)) as H.
    pose proof (Zdigits2_mul m 5764607523034235) as Hm.
    change (Zdigits2 (Zpos 5764607523034235)) with 53 in Hm.
    set (d := Zdigits2 (Zpos (m * 5764607523034235))) in *.
    set (dm := Zdigits2 (Zpos m)) in *. clearbody d dm.
    destruct (binary_round_aux _ _ _ _ _ _); [exact I|exfalso; lia|exact H|lia].
Qed.

Lemma abs_le_exponent v :
  (abs v <=? maxMomentum)%float = true -> exponent_le (-55) v.
Proof.
  rewrite FloatAxioms.leb_spec, FloatAxioms.abs_spec. unfold exponent_le.
  sf_const maxMomentum. sf_cases v.
Qed.

Lemma exponent_abs_le v :
  exponent_le (-56) v -> (abs v <=? maxMomentum)%float = true.
Proof.
  rewrite FloatAxioms.leb_spec, FloatAxioms.abs_spec. unfold exponent_le.
  sf_const maxMomentum. sf_cases v.
Qed.

Lemma abs_lt_exponent v :
  (abs v <? 0.001)%float = true -> exponent_le (-62) v.
Proof.
  rewrite FloatAxioms.ltb_spec, FloatAxioms.abs_spec. unfold exponent_le.
  sf_const 0.001%float. sf_cases v.
Qed.

Lemma exponent_abs_lt v :
  exponent_le (-63) v -> (abs v <? 0.001)%float = true.
Proof.
  rewrite FloatAxioms.ltb_spec, FloatAxioms.abs_spec. unfold exponent_le.
  sf_const 0.001%float. sf_cases v.
Qed.

(** The momentum bound survives a decay step. *)
Lemma decay_bounded v :
  (abs v <=? maxMomentum)%float = true ->
  (abs (v * momentumDecay) <=? maxMomentum)%float = true.
Proof.
  intros H. apply exponent_abs_le.
  eapply exponent_le_mono; [|apply decay_exponent, abs_le_exponent, H]. lia.
Qed.

(** Below the auto-rotation threshold, the decayed momentum stays below. *)
Lemma decay_below_threshold v :
  (abs v <? 0.001)%float = true ->
  (abs (v * momentumDecay) <? 0.001)%float = true.
Proof.
  intros H. apply exponent_abs_lt.
  eapply exponent_le_mono; [|apply decay_exponent, abs_lt_exponent, H]. lia.
Qed.

End Binary64.

Section NotNaN.
Local Open Scope Z_scope.

Lemma binary_round_aux_not_nan s m e :
  binary_round_aux prec emax s (Zpos m) e loc_Exact <> S754_nan.
Proof.
  pose proof (binary_round_aux_exponent s m e) as H.
  destruct (binary_round_aux _ _ _ _ _ _); [discriminate..|contradiction|discriminate].
Qed.

Lemma binary_round_not_nan s m e : binary_round prec emax s m e <> S754_nan.
Proof.
  unfold binary_round. destruct (shl_align _ _ _) as [mz ez].
  apply binary_round_aux_not_nan.
Qed.

Lemma binary_normalize_not_nan v e : binary_normalize prec emax v e false <> S754_nan.
Proof.
  destruct v; cbn [binary_normalize]; [discriminate|apply binary_round_not_nan..].
Qed.

(** The difference of two finite numbers is a number. *)
Lemma sub_finite_not_nan a b :
  is_finite a = true -> is_finite b = true -> is_nan (a - b)%float = false.
Proof.
  rewrite !is_finite_spec, is_nan_spec, sub_spec. unfold SF64sub, SFsub.
  destruct (Prim2SF a) as [sa|sa| |sa ma ea], (Prim2SF b) as [sb|sb| |sb mb eb];
    try discriminate; intros _ _.
  - now destruct sa, sb.
  - reflexivity.
  - reflexivity.
  - match goal with |- context [binary_normalize ?p ?q ?v ?e ?z] =>
      pose proof (binary_normalize_not_nan v e) as H;
      destruct (binary_normalize p q v e z) end; congruence.
Qed.

(** Scaling a number by the sensitivity gives a number. *)
Lemma mul_sensitivity_not_nan v :
  is_nan v = false -> is_nan (v * sensitivity)%float = false.
Proof.
  rewrite !is_nan_spec, mul_spec. unfold SF64mul, SFmul. sf_const sensitivity.
  destruct (Prim2SF v) as [s|s| |s m e]; try discriminate; intros _; try reflexivity.
  match goal with |- context [binary_round_aux ?p ?q ?s (Zpos ?m) ?e ?l] =>
    pose proof (binary_round_aux_not_nan s m e) as H;
    destruct (binary_round_aux p q s (Zpos m) e l) end; congruence.
Qed.

End NotNaN.

Section Alignment.
Local Open Scope Z_scope.

Lemma iter_xO m p : Zpos (Pos.iter xO m p) = Zpos m * 2 ^ Zpos p.
Proof.
  induction p as [|p IH] using Pos.peano_ind.
  - cbn [Pos.iter]. rewrite Z.pow_1_r. lia.
  - rewrite Pos.iter_succ, Pos2Z.inj_succ, Z.pow_succ_r by lia.
    rewrite Pos2Z.inj_xO, IH. lia.
Qed.

Lemma shl_align_spec m e e' :
  snd (shl_align m e e') = Z.min e e' /\
  Zpos (fst (shl_align m e e')) = Zpos m * 2 ^ (e - Z.min e e').
Proof.
  unfold shl_align. destruct (e' - e) as [|p|p] eqn:E; cbn [fst snd].
  - replace (e - Z.min e e') with 0 by lia. rewrite Z.pow_0_r. lia.
  - replace (e - Z.min e e') with 0 by lia. rewrite Z.pow_0_r. lia.
  - rewrite iter_xO. replace (e - Z.min e e') with (Zpos p) by lia. lia.
Qed.

Lemma Zdigits2_mul_pow2 m k :
  0 <= k -> Zdigits2 (Zpos m * 2 ^ k) = Zdigits2 (Zpos m) + k.
Proof.
  intros Hk. assert (H : 0 < Zpos m * 2 ^ k).
  { apply Z.mul_pos_pos; [lia|apply Z.pow_pos_nonneg; lia]. }
  destruct (Zpos m * 2 ^ k) as [|q|q] eqn:E; try lia.
  rewrite !Zdigits2_log2, <- E, Z.log2_mul_pow2 by lia. lia.
Qed.

(** [binary_round] in one piece: the mantissa is brought to the exponent
    [f] its digits call for, exactly when that shifts left and within one
    unit when it shifts right, and then packed. *)
Lemma binary_round_exact s m e :
  let f := fexp prec emax (Zdigits2 (Zpos m) + e) in
  exists r,
    (f <= e -> r = Zpos m * 2 ^ (e - f)) /\
    (e < f -> Zpos m / 2 ^ (f - e) <= r <= Zpos m / 2 ^ (f - e) + 1) /\
    binary_round prec emax s m e = round_finish s r f.
Proof.
  intros f. unfold binary_round.
  change (Zpos (digits2_pos m)) with (Zdigits2 (Zpos m)). fold f.
  destruct (shl_align_spec m e f) as [Hez Hmz].
  destruct (shl_align m e f) as [mz ez]. cbn [fst snd] in Hez, Hmz. subst ez.
  destruct (binary_round_aux_exact s mz (Z.min e f)) as (r & Hr & Hr0 & Hbra).
  exists r. rewrite Hbra. clear Hbra. destruct (Z.le_gt_cases f e) as [Hfe|Hfe].
  - rewrite Z.min_r in * by lia.
    assert (Hn : Z.max 0 (fexp prec emax (Zdigits2 (Zpos mz) + f) - f) = 0).
    { rewrite Hmz, Zdigits2_mul_pow2 by lia.
      replace (Zdigits2 (Zpos m) + (e - f) + f) with (Zdigits2 (Zpos m) + e) by lia.
      fold f. lia. }
    rewrite Hn in *. rewrite Z.add_0_r. split; [|split]; [|lia|reflexivity].
    intros _. rewrite (Hr0 eq_refl). exact Hmz.
  - rewrite Z.min_l in * by lia.
    replace (e - e) with 0 in Hmz by lia. rewrite Z.pow_0_r, Z.mul_1_r in Hmz.
    injection Hmz as ->.
    assert (Hn : Z.max 0 (fexp prec emax (Zdigits2 (Zpos m) + e) - e) = f - e)
      by (fold f; lia).
    rewrite Hn in *. replace (e + (f - e)) with f by lia.
    split; [lia|]. split; [|reflexivity]. intros _. exact Hr.
Qed.

End Alignment.

Section Zoom.
Local Open Scope Z_scope.

(** A distance within the zoom range is a positive normal number with
    exponent -53, -52 or -51. *)
Lemma within_zoom_finite d :
  within 0.5 3 d = true ->
  exists m e,
    Prim2SF d = S754_finite false m e /\ -53 <= e <= -51 /\
    2 ^ 52 <= Zpos m < 2 ^ 53 /\ (e = -51 -> Zpos m <= 6755399441055744).
Proof.
  unfold within. intros H. apply andb_prop in H as [H1 H2].
  assert (Hv := valid_finite d). revert Hv H1 H2.
  rewrite !FloatAxioms.leb_spec. sf_const 0.5%float. sf_const 3%float.
  destruct (Prim2SF d) as [[]|[]| |[] m e]; sf_unfold; compare_cases; intros;
    try discriminate.
  all: destruct (Hv _ _ _ eq_refl) as (_ & _ & Hd);
    pose proof (Zdigits2_bounds m) as Hb; rewrite Hd in Hb by lia;
    exists m, e; (split; [reflexivity|]); lia.
Qed.

(** The sum of a distance in range and 0.3 is not below 0.5. *)
Lemma add_step_lower d :
  within 0.5 3 d = true -> (0.5 <=? d + 0.3)%float = true.
Proof.
  intros H. destruct (within_zoom_finite d H) as (m & e & Ed & He & Hm & _).
  rewrite FloatAxioms.leb_spec, add_spec, Ed. sf_const 0.5%float. sf_const 0.3%float.
  unfold SF64add, SFadd. replace (Z.min e (-54)) with (-54) by lia.
  destruct (shl_align_spec m e (-54)) as [_ H1].
  destruct (shl_align_spec 5404319552844595 (-54) (-54)) as [_ H2].
  cbn [cond_Zopp]. rewrite H1, H2.
  replace (Z.min e (-54)) with (-54) by lia.
  change (Z.min (-54) (-54)) with (-54). change (-54 - -54) with 0.
  rewrite Z.pow_0_r, Z.mul_1_r.
  assert (Hp : 1 <= 2 ^ (e - -54)) by (apply (Z.pow_le_mono_r 2 0); lia).
  assert (HS : 2 ^ 53 <= Zpos m * 2 ^ (e - -54) + 5404319552844595) by nia.
  destruct (Zpos m * 2 ^ (e - -54) + 5404319552844595) as [|p|p] eqn:ES; try lia.
  clear ES H1 H2 Hp. cbn [binary_normalize].
  destruct (binary_round_exact false p (-54)) as (r & _ & Hr & ->).
  rewrite fexp_binary64 in Hr.
  pose proof (Zdigits2_gt _ 53 ltac:(lia) HS) as Hd.
  pose proof (Zdigits2_bounds p) as [Hlo _].
  rewrite fexp_binary64.
  set (dS := Zdigits2 (Zpos p)) in *. clearbody dS.
  replace (Z.max (dS + -54 - 53) (-1074)) with (dS - 107) in * by lia.
  replace (dS - 107 - -54) with (dS - 53) in Hr by lia.
  specialize (Hr ltac:(lia)).
  assert (Hq : 2 ^ 52 <= Zpos p / 2 ^ (dS - 53)).
  { apply Z.div_le_lower_bound; [apply Z.pow_pos_nonneg; lia|].
    rewrite <- Z.pow_add_r by lia. replace (dS - 53 + 52) with (dS - 1) by lia.
    exact Hlo. }
  assert (Hr52 : 2 ^ 52 <= r) by lia. clear Hr Hq Hlo.
  pose proof (Zdigits2_gt _ 52 ltac:(lia) Hr52) as Hdr.
  assert (Hrlo : 2 ^ (Zdigits2 r - 1) <= r).
  { pose proof (Zdigits2_bounds (Z.to_pos r)) as [Hrlo _].
    rewrite Z2Pos.id in Hrlo by lia. exact Hrlo. }
  destruct (round_finish_cases false r (dS - 107) ltac:(lia)) as
    [[Hz _]|(q & Hq2 & [[Hle ->]|[Hgt ->]])];
    rewrite fexp_binary64 in *;
    set (dr := Zdigits2 r) in *; clearbody dr;
    replace (Z.max 0 (Z.max (dr + (dS - 107) - 53) (-1074) - (dS - 107)))
      with (dr - 53) in * by lia.
  - exfalso.
    assert (1 <= r / 2 ^ (dr - 53)); [|lia].
    apply Z.div_le_lower_bound; [apply Z.pow_pos_nonneg; lia|].
    rewrite Z.mul_1_r. eapply Z.le_trans; [|exact Hrlo].
    apply Z.pow_le_mono_r; lia.
  - sf_unfold. compare_cases; try reflexivity; exfalso; try lia.
    replace (dr - 53) with 0 in Hq2 by lia.
    rewrite Z.pow_0_r, Z.div_1_r in Hq2. lia.
  - reflexivity.
Qed.

(** Rounding at exponent -54 a mantissa worth at most 3 - 0.3 stays at or
    below 3. *)
Lemma binary_round_le_three p :
  Zpos p <= 48638875975601357 ->
  SFleb (binary_round prec emax false p (-54))
        (S754_finite false 6755399441055744 (-51)) = true.
Proof.
  intros Hp.
  destruct (binary_round_exact false p (-54)) as (r & Hr1 & Hr2 & ->).
  rewrite fexp_binary64 in *.
  pose proof (Zdigits2_le (Zpos p) 56 ltac:(lia) ltac:(lia) ltac:(lia)) as HdS.
  pose proof (Zdigits2_bounds p) as [Hlo Hhi].
  assert (H1 : 1 <= Zdigits2 (Zpos p)) by (cbn; lia).
  assert (Hd53 : Zdigits2 (Zpos p) <= 53 -> Zdigits2 r = 53).
  { intros Hle. rewrite Hr1 by lia. rewrite Zdigits2_mul_pow2 by lia. lia. }
  set (dS := Zdigits2 (Zpos p)) in *. clearbody dS.
  replace (Z.max (dS + -54 - 53) (-1074)) with (dS - 107) in * by lia.
  assert (Hr0 : 0 <= r).
  { destruct (Z.le_gt_cases (dS - 107) (-54)) as [Hc|Hc].
    - rewrite Hr1 by lia. apply Z.mul_nonneg_nonneg; [lia|].
      apply Z.pow_nonneg; lia.
    - specialize (Hr2 Hc).
      assert (0 <= Zpos p / 2 ^ (dS - 107 - -54))
        by (apply Z.div_pos; [lia|apply Z.pow_pos_nonneg; lia]).
      lia. }
  assert (Hub : forall q, 0 <= q -> q < 2 ^ Zdigits2 q).
  { intros [|q|q] Hq; [cbn; lia|apply Zdigits2_bounds|lia]. }
  assert (Hr53 : r <= 2 ^ 53 /\ (dS = 56 -> r <= 6755399441055744)).
  { destruct (Z.le_gt_cases dS 53) as [Hc|Hc].
    - pose proof (Hub r Hr0) as Hr. rewrite Hd53 in Hr by lia. lia.
    - specialize (Hr2 ltac:(lia)).
      assert (HdS' : dS = 54 \/ dS = 55 \/ dS = 56) by lia.
      destruct HdS' as [->|[->| ->]]; cbn in Hr2, Hhi;
        revert Hr2; Z.div_mod_to_equations; lia. }
  destruct Hr53 as [Hr53 Hr56].
  assert (Hdr : Zdigits2 r <= 54) by (apply Zdigits2_le; lia).
  assert (Hlow : 54 <= Zdigits2 r -> 2 ^ 53 <= r).
  { intros Hc. destruct r as [|q|q]; [cbn in Hc; lia| |lia].
    pose proof (Zdigits2_bounds q) as [Hq _].
    eapply Z.le_trans; [|exact Hq]. apply Z.pow_le_mono_r; lia. }
  clear Hub Hr1 Hr2 Hd53 Hlo Hhi.
  destruct (round_finish_cases false r (dS - 107) Hr0) as
    [[_ ->]|(q & Hq2 & [[Hle ->]|[Hgt ->]])]; [reflexivity| |];
    rewrite fexp_binary64 in *;
    set (dr := Zdigits2 r) in *; clearbody dr.
  - assert (Hn2 : Z.max 0 (Z.max (dr + (dS - 107) - 53) (-1074) - (dS - 107)) = 0
                  \/ (Z.max 0 (Z.max (dr + (dS - 107) - 53) (-1074) - (dS - 107)) = 1
                      /\ dr = 54)) by lia.
    destruct Hn2 as [Hn2|[Hn2 Hdr54]]; rewrite Hn2 in *.
    + rewrite Z.pow_0_r, Z.div_1_r in Hq2.
      sf_unfold. compare_cases; try reflexivity; exfalso; lia.
    + change (2 ^ 1) with 2 in Hq2. specialize (Hlow ltac:(lia)).
      sf_unfold. compare_cases; try reflexivity; exfalso; try lia.
      revert Hq2. Z.div_mod_to_equations. lia.
  - exfalso. lia.
Qed.

(** The difference of a distance in range and 0.3 is not above 3. *)
Lemma sub_step_upper d :
  within 0.5 3 d = true -> (d - 0.3 <=? 3)%float = true.
Proof.
  intros H. destruct (within_zoom_finite d H) as (m & e & Ed & He & Hm & Hm3).
  rewrite FloatAxioms.leb_spec, sub_spec, Ed. sf_const 3%float. sf_const 0.3%float.
  unfold SF64sub, SFsub. replace (Z.min e (-54)) with (-54) by lia.
  destruct (shl_align_spec m e (-54)) as [_ H1].
  destruct (shl_align_spec 5404319552844595 (-54) (-54)) as [_ H2].
  cbn [cond_Zopp]. rewrite H1, H2.
  replace (Z.min e (-54)) with (-54) by lia.
  change (Z.min (-54) (-54)) with (-54). change (-54 - -54) with 0.
  rewrite Z.pow_0_r, Z.mul_1_r. clear H1 H2.
  assert (HD : 0 < Zpos m * 2 ^ (e - -54) - 5404319552844595 <= 48638875975601357).
  { assert (He' : e = -53 \/ e = -52 \/ e = -51) by lia.
    destruct He' as [->|[->| ->]]; cbn; lia. }
  destruct (Zpos m * 2 ^ (e - -54) - 5404319552844595) as [|p|p]; try lia.
  cbn [binary_normalize]. apply binary_round_le_three. lia.
Qed.
End Zoom.

(** ** Order facts on numbers *)

Lemma leb_not_nan a b : (a <=? b) = true -> is_nan a = false /\ is_nan b = false.
Proof.
  rewrite FloatAxioms.leb_spec, !is_nan_spec.
  destruct (Prim2SF a) as [[]|[]| |[] ? ?], (Prim2SF b) as [[]|[]| |[] ? ?];
    cbn; intros; try discriminate; split; reflexivity.
Qed.

Lemma ltb_leb a b : (a <? b) = true -> (a <=? b) = true.
Proof.
  rewrite FloatAxioms.ltb_spec, FloatAxioms.leb_spec. unfold SFltb, SFleb.
  destruct (SFcompare _ _) as [[]|]; intros; try discriminate; reflexivity.
Qed.

(** At or below 0.5, [Math.max] returns 0.5; at or above 3, [Math.min]
    returns 3: the zoom saturates. *)
Lemma Math_max_saturates v : (v <=? 0.5) = true -> Math.max [0.5; v] = 0.5.
Proof.
  intros H. destruct (leb_not_nan _ _ H) as [Hv _].
  rewrite Math_max_pair by (reflexivity || assumption).
  replace (is_neg_zero 0.5) with false by reflexivity. rewrite andb_false_r.
  replace (0.5 <? v) with false; [reflexivity|].
  revert H. rewrite FloatAxioms.leb_spec, FloatAxioms.ltb_spec. sf_const 0.5.
  sf_cases v.
Qed.

Lemma Math_min_saturates v : (3 <=? v) = true -> Math.min [3; v] = 3.
Proof.
  intros H. destruct (leb_not_nan _ _ H) as [_ Hv].
  rewrite Math_min_pair by (reflexivity || assumption).
  replace (is_pos_zero 3) with false by reflexivity. rewrite andb_false_r.
  replace (v <? 3) with false; [reflexivity|].
  revert H. rewrite FloatAxioms.leb_spec, FloatAxioms.ltb_spec. sf_const 3.
  sf_cases v.
Qed.

(** One zoom step keeps the distance within the range. *)
Lemma zoomIn_value_within d :
  within 0.5 3 d = true -> within 0.5 3 (Math.max [0.5; d - 0.3]) = true.
Proof.
  intros H. pose proof (sub_step_upper d H) as Hup.
  destruct (leb_not_nan _ _ Hup) as [Hnan _].
  rewrite Math_max_pair by (reflexivity || assumption).
  replace (is_neg_zero 0.5) with false by reflexivity. rewrite andb_false_r.
  destruct (0.5 <? d - 0.3) eqn:E; [|reflexivity].
  unfold within. now rewrite (ltb_leb _ _ E), Hup.
Qed.

Lemma zoomOut_value_within d :
  within 0.5 3 d = true -> within 0.5 3 (Math.min [3; d + 0.3]) = true.
Proof.
  intros H. pose proof (add_step_lower d H) as Hlo.
  destruct (leb_not_nan _ _ Hlo) as [_ Hnan].
  rewrite Math_min_pair by (reflexivity || assumption).
  replace (is_pos_zero 3) with false by reflexivity. rewrite andb_false_r.
  destruct (d + 0.3 <? 3) eqn:E; [|reflexivity].
  unfold within. now rewrite (ltb_leb _ _ E), Hlo.
Qed.

(** * The handlers, field by field *)

(** Unfold the assignments of a handler down to the record they build. *)
Ltac assignments :=
  cbv [call set_currentZoom set_camera_position_z set_camera_aspect
       set_earth_rotation_x set_earth_rotation_y set_earth_material_color
       set_earth_material_map set_earth_material_needsUpdate set_isDragging
       set_previousMousePosition set_momentumX set_momentumY
       currentZoom camera_position_z camera_aspect earth_rotation_x
       earth_rotation_y earth_material_color earth_material_map
       earth_material_needsUpdate isDragging previousMousePosition
       momentumX momentumY calls x y negb] in *.

(** ** The animation frame *)

Lemma animate_isDragging s : isDragging (animate s) = isDragging s.
Proof.
  destruct s as [? ? ? ? ? ? ? ? [] ? ? ? ?]; unfold animate; assignments;
    [reflexivity|]; now destruct (_ && _).
Qed.

Lemma animate_momentumX s :
  momentumX (animate s) =
  if isDragging s then momentumX s else momentumX s * momentumDecay.
Proof.
  destruct s as [? ? ? ? ? ? ? ? [] ? ? ? ?]; unfold animate; assignments;
    [reflexivity|]; now destruct (_ && _).
Qed.

Lemma animate_momentumY s :
  momentumY (animate s) =
  if isDragging s then momentumY s else momentumY s * momentumDecay.
Proof.
  destruct s as [? ? ? ? ? ? ? ? [] ? ? ? ?]; unfold animate; assignments;
    [reflexivity|]; now destruct (_ && _).
Qed.

(** C2. With no drag active, one frame adds the momenta to the rotation
    (momentumX to rotation.y, momentumY to rotation.x), then multiplies each
    momentum by 0.01, then, if both decayed momenta are below 0.001 in
    magnitude, adds 0.009 to rotation.y; no other field of the orientation
    state changes (the frame also requests the next frame and renders). *)
Theorem animate_idle_frame (s : State) :
  isDragging s = false ->
  let rotation_y := earth_rotation_y s + momentumX s in
  let rotation_x := earth_rotation_x s + momentumY s in
  let decayedX := momentumX s * 0.01 in
  let decayedY := momentumY s * 0.01 in
  animate s =
  {| currentZoom := currentZoom s;
     camera_position_z := camera_position_z s;
     camera_aspect := camera_aspect s;
     earth_rotation_x := rotation_x;
     earth_rotation_y :=
       if (Math.abs decayedX <? 0.001) && (Math.abs decayedY <? 0.001)
       then rotation_y + 0.009 else rotation_y;
     earth_material_color := earth_material_color s;
     earth_material_map := earth_material_map s;
     earth_material_needsUpdate := earth_material_needsUpdate s;
     isDragging := false;
     previousMousePosition := previousMousePosition s;
     momentumX := decayedX;
     momentumY := decayedY;
     calls := calls s ++ [requestAnimationFrame; renderer_render] |}.
Proof.
  intros H. destruct s; cbn in H; subst. unfold animate. assignments.
  destruct (_ && _); assignments; rewrite <- app_assoc; reflexivity.
Qed.

Lemma animate_idle_frame_witness :
  animate flung =
  {| currentZoom := 1.8; camera_position_z := 1.8; camera_aspect := 1;
     earth_rotation_x := 0.15 + 0.15;
     earth_rotation_y := 0.15 + 0.15;
     earth_material_color := 0xffffff%Z;
     earth_material_map := None;
     earth_material_needsUpdate := false;
     isDragging := false;
     previousMousePosition := {| x := 100; y := 100 |};
     momentumX := 0.15 * 0.01;
     momentumY := 0.15 * 0.01;
     calls := [requestAnimationFrame; renderer_render] |}.
Proof. exact (animate_idle_frame flung eq_refl). Defined.

(** While a drag is active the frame only requests the next frame and
    renders. *)
Lemma animate_dragging_frame (s : State) :
  isDragging s = true ->
  animate s = call renderer_render (call requestAnimationFrame s).
Proof. intros H. destruct s; cbn in H; subst. reflexivity. Qed.

(** ** Drag *)

(** C4. While a drag is active, a move (mouse or touch) sets each momentum
    to the clamped scaled delta to the last pointer position, adds momentumX
    to rotation.y and momentumY to rotation.x at once, and records the
    current position; a move by 100 along x gives momentumX = 0.15. *)
Theorem drag_move (s : State) (clientX clientY : float)
    (touch : Point) (others : list Point) :
  isDragging s = true ->
  mousemove clientX clientY s = spec_drag_move {| x := clientX; y := clientY |} s
  /\ touchmove (touch :: others) s
     = call preventDefault (spec_drag_move {| x := x touch; y := y touch |} s)
  /\ (clientX - x (previousMousePosition s) = 100 ->
      momentumX (mousemove clientX clientY s) = 0.15)
  /\ (x touch - x (previousMousePosition s) = 100 ->
      momentumX (touchmove (touch :: others) s) = 0.15).
Proof.
  intros H. destruct s, touch; cbn in H; subst.
  unfold mousemove, touchmove, spec_drag_move. assignments.
  rewrite !clamp_momentum. repeat split; try reflexivity.
  - intros ->. reflexivity.
  - intros ->. reflexivity.
Qed.

Lemma drag_move_witness :
  mousemove 100 0 (mousedown 0 0 constructed)
  = spec_drag_move {| x := 100; y := 0 |} (mousedown 0 0 constructed)
  /\ momentumX (mousemove 100 0 (mousedown 0 0 constructed)) = 0.15.
Proof.
  destruct (drag_move (mousedown 0 0 constructed) 100 0 {| x := 100; y := 0 |} []
              eq_refl) as (H1 & _ & H2 & _).
  split; [exact H1|exact (H2 eq_refl)].
Defined.

(** A move outside a drag changes nothing. *)
Lemma move_without_drag (s : State) (clientX clientY : float) (touches : list Point) :
  isDragging s = false ->
  mousemove clientX clientY s = s /\ touchmove touches s = s.
Proof. intros H. unfold mousemove, touchmove. now rewrite H. Qed.

(** C5. Every drag end (mouse up, mouse leave, touch end) sets isDragging to
    false and leaves every other field as it was, the momenta included, so
    the next frame keeps rotating the globe by them. *)
Theorem drag_end (s : State) :
  mouseup s =
  {| currentZoom := currentZoom s;
     camera_position_z := camera_position_z s;
     camera_aspect := camera_aspect s;
     earth_rotation_x := earth_rotation_x s;
     earth_rotation_y := earth_rotation_y s;
     earth_material_color := earth_material_color s;
     earth_material_map := earth_material_map s;
     earth_material_needsUpdate := earth_material_needsUpdate s;
     isDragging := false;
     previousMousePosition := previousMousePosition s;
     momentumX := momentumX s;
     momentumY := momentumY s;
     calls := calls s |}
  /\ mouseleave s = mouseup s
  /\ touchend s = mouseup s
  /\ earth_rotation_x (animate (mouseup s)) = earth_rotation_x s + momentumY s
  /\ earth_rotation_y (animate (mouseup s)) =
     if auto_rotates (mouseup s)
     then earth_rotation_y s + momentumX s + rotationSpeed
     else earth_rotation_y s + momentumX s.
Proof.
  destruct s. unfold mouseup, mouseleave, touchend, animate, auto_rotates.
  assignments. cbn [andb].
  repeat split; destruct (_ && _); reflexivity.
Qed.

(** ** Zoom *)

(** [Math.max] and [Math.min] against a bound, spelled out. *)
Lemma Math_max_half v :
  Math.max [0.5; v] = if is_nan v then nan else if 0.5 <? v then v else 0.5.
Proof.
  destruct (is_nan v) eqn:Hnan.
  - unfold Math.max. cbn [existsb]. rewrite Hnan. reflexivity.
  - rewrite Math_max_pair by (reflexivity || assumption).
    replace (is_neg_zero 0.5) with false by reflexivity.
    now rewrite andb_false_r.
Qed.

Lemma Math_min_three v :
  Math.min [3; v] = if is_nan v then nan else if v <? 3 then v else 3.
Proof.
  destruct (is_nan v) eqn:Hnan.
  - unfold Math.min. cbn [existsb]. rewrite Hnan. reflexivity.
  - rewrite Math_min_pair by (reflexivity || assumption).
    replace (is_pos_zero 3) with false by reflexivity.
    now rewrite andb_false_r.
Qed.

(** C6. zoomIn sets the distance to max(0.5, distance - 0.3) and zoomOut
    to min(3, distance + 0.3); each writes the new distance to the camera
    and nothing else; at the bounds the distance saturates at 0.5 and at 3. *)
Theorem zoom_buttons (s : State) :
  zoomIn s =
  {| currentZoom := Math.max [0.5; currentZoom s - 0.3];
     camera_position_z := Math.max [0.5; currentZoom s - 0.3];
     camera_aspect := camera_aspect s;
     earth_rotation_x := earth_rotation_x s;
     earth_rotation_y := earth_rotation_y s;
     earth_material_color := earth_material_color s;
     earth_material_map := earth_material_map s;
     earth_material_needsUpdate := earth_material_needsUpdate s;
     isDragging := isDragging s;
     previousMousePosition := previousMousePosition s;
     momentumX := momentumX s;
     momentumY := momentumY s;
     calls := calls s |}
  /\ zoomOut s =
  {| currentZoom := Math.min [3; currentZoom s + 0.3];
     camera_position_z := Math.min [3; currentZoom s + 0.3];
     camera_aspect := camera_aspect s;
     earth_rotation_x := earth_rotation_x s;
     earth_rotation_y := earth_rotation_y s;
     earth_material_color := earth_material_color s;
     earth_material_map := earth_material_map s;
     earth_material_needsUpdate := earth_material_needsUpdate s;
     isDragging := isDragging s;
     previousMousePosition := previousMousePosition s;
     momentumX := momentumX s;
     momentumY := momentumY s;
     calls := calls s |}
  /\ currentZoom (zoomIn s) =
     (let v := currentZoom s - 0.3 in
      if is_nan v then nan else if 0.5 <? v then v else 0.5)
  /\ currentZoom (zoomOut s) =
     (let v := currentZoom s + 0.3 in
      if is_nan v then nan else if v <? 3 then v else 3)
  /\ ((currentZoom s - 0.3 <=? 0.5) = true -> currentZoom (zoomIn s) = 0.5)
  /\ ((3 <=? currentZoom s + 0.3) = true -> currentZoom (zoomOut s) = 3).
Proof.
  destruct s. unfold zoomIn, zoomOut. assignments.
  repeat split; try reflexivity.
  - apply Math_max_half.
  - apply Math_min_three.
  - apply Math_max_saturates.
  - apply Math_min_saturates.
Qed.

Lemma zoom_buttons_witness :
  currentZoom (zoomIn (Nat.iter 4 zoomIn constructed)) = 0.5
  /\ currentZoom (zoomOut (Nat.iter 4 zoomOut constructed)) = 3.
Proof.
  split.
  - exact (proj1 (proj2 (proj2 (proj2 (proj2
             (zoom_buttons (Nat.iter 4 zoomIn constructed)))))) eq_refl).
  - exact (proj2 (proj2 (proj2 (proj2 (proj2
             (zoom_buttons (Nat.iter 4 zoomOut constructed)))))) eq_refl).
Defined.

(** ** Texture loading *)

(** C9. loadTexture sets the material colour to the placeholder 0x333333
    at once and starts the fetch; when the fetch fails the handler logs the
    error, sets the colour to 0x3366cc, leaves the map as it was and sets
    needsUpdate. *)
Theorem texture_load_failure (url : Value) (error : string) (s : State) :
  loadTexture url s =
  {| currentZoom := currentZoom s;
     camera_position_z := camera_position_z s;
     camera_aspect := camera_aspect s;
     earth_rotation_x := earth_rotation_x s;
     earth_rotation_y := earth_rotation_y s;
     earth_material_color := 0x333333%Z;
     earth_material_map := earth_material_map s;
     earth_material_needsUpdate := earth_material_needsUpdate s;
     isDragging := isDragging s;
     previousMousePosition := previousMousePosition s;
     momentumX := momentumX s;
     momentumY := momentumY s;
     calls := calls s ++ [textureLoader_load url] |}
  /\ onError error s =
  {| currentZoom := currentZoom s;
     camera_position_z := camera_position_z s;
     camera_aspect := camera_aspect s;
     earth_rotation_x := earth_rotation_x s;
     earth_rotation_y := earth_rotation_y s;
     earth_material_color := 0x3366cc%Z;
     earth_material_map := earth_material_map s;
     earth_material_needsUpdate := true;
     isDragging := isDragging s;
     previousMousePosition := previousMousePosition s;
     momentumX := momentumX s;
     momentumY := momentumY s;
     calls := calls s ++ [console_error "Error loading texture:" error] |}
  /\ earth_material_color (onError error (loadTexture url s)) = 0x3366cc%Z
  /\ earth_material_map (onError error (loadTexture url s)) = earth_material_map s
  /\ earth_material_needsUpdate (onError error (loadTexture url s)) = true.
Proof. destruct s. repeat split. Qed.

(** Every branch a handler can take, each down to the record it builds. *)
Ltac handler_cases :=
  unfold zoomIn, zoomOut, resizeRenderer, mousedown, mousemove, mouseup,
    mouseleave, touchstart, touchmove, touchend, animate, eraSelector_change,
    loadTexture, onLoad, onProgress, onError in *;
  assignments;
  repeat (match goal with
          | |- context [if ?c then _ else _] => destruct c eqn:?
          | |- context [match ?l with [] => _ | _ :: _ => _ end] => destruct l eqn:?
          end; assignments).






(** ** Momentum bound *)

Lemma drag_momentum_bounded a b :
  is_finite a = true -> is_finite b = true ->
  (abs (Math.min [maxMomentum; Math.max [- maxMomentum; (a - b) * sensitivity]])
   <=? maxMomentum) = true.
Proof.
  intros Ha Hb. rewrite clamp_momentum. apply clamp_bounded.
  apply mul_sensitivity_not_nan, sub_finite_not_nan; assumption.
Qed.

(** Right after a drag move the momenta are within the bound, whatever
    they were before. *)
Lemma drag_move_bounded (s : State) (clientX clientY : float) :
  isDragging s = true ->
  is_finite clientX = true -> is_finite clientY = true ->
  finite_point (previousMousePosition s) = true ->
  momentum_bounded (mousemove clientX clientY s) = true
  /\ momentum_bounded (touchmove [{| x := clientX; y := clientY |}] s) = true.
Proof.
  unfold momentum_bounded, finite_point, Math.abs.
  destruct s as [? ? ? ? ? ? ? ? ? [px py] ? ? ?]. cbn [isDragging].
  intros -> HX HY Hp. unfold mousemove, touchmove. assignments.
  apply andb_prop in Hp as [Hpx Hpy].
  now rewrite !drag_momentum_bounded.
Qed.

Lemma dispatch_momentum_invariant (e : Event) (s : State) :
  pointer_finite e = true ->
  momentum_invariant s -> momentum_invariant (dispatch e s).
Proof.
  unfold momentum_invariant, momentum_bounded, finite_point, Math.abs.
  destruct s as [? ? ? ? ? ? ? ? ? [px py] ? ? ?], e;
    try match goal with touches : list Point |- _ =>
          destruct touches as [|[tx ty] ?] end;
    cbn [dispatch pointer_finite forallb]; unfold finite_point;
    intros He [Hm Hp]; handler_cases;
    rewrite ?andb_true_iff in *;
    repeat match goal with H : _ /\ _ |- _ => destruct H end;
    repeat split;
    auto using drag_momentum_bounded, decay_bounded.
Qed.

Lemma startup_momentum_invariant (innerWidth : float) :
  momentum_invariant (startup innerWidth).
Proof.
  unfold momentum_invariant, startup, resizeRenderer, loadTexture, animate.
  assignments. destruct (_ && _); split; reflexivity.
Qed.

Lemma run_momentum_invariant (events : list Event) (s : State) :
  forallb pointer_finite events = true ->
  momentum_invariant s -> momentum_invariant (run events s).
Proof.
  revert s. induction events as [|e events IH]; intros s Hev Hs; [exact Hs|].
  cbn [forallb] in Hev. apply andb_prop in Hev as [He Hev].
  cbn [run fold_left]. apply IH; [exact Hev|].
  now apply dispatch_momentum_invariant.
Qed.

Lemma forallb_firstn {A} (p : A -> bool) (l : list A) (k : nat) :
  forallb p l = true -> forallb p (firstn k l) = true.
Proof.
  revert k. induction l as [|a l IH]; intros [|k] H; try reflexivity.
  cbn [forallb firstn] in *. apply andb_prop in H as [Ha Hl].
  now rewrite Ha, IH.
Qed.

(** C1. Along every sequence of events the page can deliver, after each
    event both momenta are at most 0.15 in magnitude: a drag move clamps
    them, a frame only multiplies them by the decay factor, and no other
    handler writes them. *)
Theorem momentum_always_bounded (innerWidth : float) (events : list Event) (k : nat) :
  forallb pointer_finite events = true ->
  let s := run (firstn k events) (startup innerWidth) in
  (Math.abs (momentumX s) <=? 0.15) = true /\ (Math.abs (momentumY s) <=? 0.15) = true.
Proof.
  intros Hev s.
  destruct (run_momentum_invariant (firstn k events) (startup innerWidth)
              (forallb_firstn _ _ k Hev) (startup_momentum_invariant innerWidth))
    as [Hm _].
  unfold momentum_bounded in Hm. apply andb_prop in Hm. exact Hm.
Qed.

Lemma momentum_always_bounded_witness :
  let s := run (firstn 3 [canvas_mousedown 10 20; canvas_mousemove 500 (-300);
                          canvas_touchmove [{| x := 3; y := 4 |}];
                          canvas_mouseup; animation_frame])
             (startup 1000) in
  (Math.abs (momentumX s) <=? 0.15) = true /\ (Math.abs (momentumY s) <=? 0.15) = true.
Proof.
  exact (momentum_always_bounded 1000
           [canvas_mousedown 10 20; canvas_mousemove 500 (-300);
            canvas_touchmove [{| x := 3; y := 4 |}];
            canvas_mouseup; animation_frame] 3 eq_refl).
Defined.

(** ** Zoom range *)

Lemma dispatch_zoom_within (e : Event) (s : State) :
  within 0.5 3 (currentZoom s) = true ->
  within 0.5 3 (currentZoom (dispatch e s)) = true.
Proof.
  destruct s, e; cbn [dispatch]; intros H; handler_cases;
    auto using zoomIn_value_within, zoomOut_value_within.
Qed.

Lemma run_zoom_within (events : list Event) (s : State) :
  within 0.5 3 (currentZoom s) = true ->
  within 0.5 3 (currentZoom (run events s)) = true.
Proof.
  revert s. induction events as [|e events IH]; intros s H; [exact H|].
  cbn [run fold_left]. apply IH. now apply dispatch_zoom_within.
Qed.

Lemma zoomOut_iter (n : nat) (s : State) :
  currentZoom (Nat.iter n zoomOut s)
  = Nat.iter n (fun d => Math.min [3; d + 0.3]) (currentZoom s).
Proof.
  induction n as [|n IH]; [reflexivity|].
  rewrite !Nat.iter_succ, <- IH. now destruct (Nat.iter n zoomOut s).
Qed.

(** C7. From a distance within [0.5, 3], the distance stays within
    [0.5, 3] along every sequence of events, zoom clicks included; from 1.8,
    twenty zoomOut calls give exactly 3, and so does every longer run of
    zoomOut calls. *)
Theorem zoom_stays_in_range (events : list Event) (s : State) :
  within 0.5 3 (currentZoom s) = true ->
  ((0.5 <=? currentZoom (run events s)) = true
   /\ (currentZoom (run events s) <=? 3) = true)
  /\ (currentZoom s = 1.8 ->
      forall k, currentZoom (Nat.iter (20 + k) zoomOut s) = 3).
Proof.
  intros H. split.
  - apply andb_prop. exact (run_zoom_within events s H).
  - intros Hs k. rewrite zoomOut_iter, Hs, Nat.add_comm, Nat.iter_add.
    replace (Nat.iter 20 (fun d => Math.min [3; d + 0.3]) 1.8) with 3
      by (vm_compute; reflexivity).
    induction k as [|k IH]; [reflexivity|].
    rewrite Nat.iter_succ, IH. reflexivity.
Qed.

Lemma zoom_stays_in_range_witness :
  ((0.5 <=? currentZoom (run [zoomInBtn_click; zoomInBtn_click; zoomOutBtn_click]
                           constructed)) = true
   /\ (currentZoom (run [zoomInBtn_click; zoomInBtn_click; zoomOutBtn_click]
                      constructed) <=? 3) = true)
  /\ currentZoom (Nat.iter (20 + 5) zoomOut constructed) = 3.
Proof.
  destruct (zoom_stays_in_range [zoomInBtn_click; zoomInBtn_click; zoomOutBtn_click]
              constructed eq_refl) as [H1 H2].
  split; [exact H1|exact (H2 eq_refl 5%nat)].
Defined.

(** ** Auto-rotation after a release *)

Lemma animate_iter_isDragging (k : nat) (s : State) :
  isDragging (Nat.iter k animate s) = isDragging s.
Proof.
  induction k as [|k IH]; [reflexivity|].
  now rewrite Nat.iter_succ, animate_isDragging.
Qed.

Lemma auto_rotates_next (s : State) :
  isDragging s = false -> auto_rotates s = true -> auto_rotates (animate s) = true.
Proof.
  unfold auto_rotates.
  rewrite animate_isDragging, animate_momentumX, animate_momentumY.
  intros ->. cbn [negb andb]. intros H. apply andb_prop in H as [HX HY].
  unfold Math.abs in *. now rewrite !decay_below_threshold.
Qed.

(** Runs [animate] on any state of which the drag flag and the outcome of
    the test on the decayed momenta are given, and reads the result off. *)
Ltac run_animate :=
  let Hflag := fresh in
  let Htest := fresh in
  intros [] Hflag Htest; cbn in Hflag; subst;
  unfold auto_rotates in Htest; unfold animate; assignments; cbn [andb] in *;
  rewrite ?Htest; reflexivity.

Lemma auto_rotates_iter (k : nat) (s : State) :
  isDragging s = false -> auto_rotates s = true ->
  auto_rotates (Nat.iter k animate s) = true.
Proof.
  intros Hd Ha. induction k as [|k IH]; [exact Ha|].
  rewrite Nat.iter_succ. apply auto_rotates_next; [|exact IH].
  now rewrite animate_iter_isDragging.
Qed.

(** A number of magnitude 0.15 is 0.15 or -0.15. *)
Lemma abs_maxMomentum_cases (v : float) :
  Math.abs v = 0.15 -> v = 0.15 \/ v = -0.15.
Proof.
  unfold Math.abs. intros H. apply (f_equal Prim2SF) in H.
  rewrite abs_spec in H.
  assert (K : Prim2SF 0.15 = S754_finite false 5404319552844595 (-55))
    by (vm_compute; reflexivity).
  rewrite K in H.
  destruct (Prim2SF v) as [[]|[]| |[] m e] eqn:E; cbn in H; try discriminate H;
    injection H as -> ->; [right|left]; apply Prim2SF_inj; rewrite E;
    vm_compute; reflexivity.
Qed.

(** C3, as the script has it. Released with momentum of magnitude 0.15 on
    both axes, whatever the signs, the first idle frame turns the globe by
    the momentum alone, without the 0.009 of auto-rotation: the momentum has
    decayed to magnitude 0.0015, not below 0.001. The second idle frame and
    every idle frame after it add 0.009 to rotation.y on top of the
    momentum. After three idle frames the momentum has magnitude
    0.15 * 0.01 * 0.01 * 0.01, below 0.001. *)
Theorem auto_rotation_from_second_frame (s : State) :
  isDragging s = false ->
  Math.abs (momentumX s) = 0.15 -> Math.abs (momentumY s) = 0.15 ->
  (earth_rotation_y (animate s) = earth_rotation_y s + momentumX s
   /\ Math.abs (momentumX (animate s)) = 0.15 * 0.01
   /\ Math.abs (momentumY (animate s)) = 0.15 * 0.01
   /\ (0.15 * 0.01 <? 0.001) = false)
  /\ (forall k, (1 <= k)%nat ->
        earth_rotation_y (Nat.iter (S k) animate s)
        = earth_rotation_y (Nat.iter k animate s)
          + momentumX (Nat.iter k animate s) + 0.009)
  /\ (Math.abs (momentumX (Nat.iter 3 animate s)) = 0.15 * 0.01 * 0.01 * 0.01
      /\ Math.abs (momentumY (Nat.iter 3 animate s)) = 0.15 * 0.01 * 0.01 * 0.01
      /\ (0.15 * 0.01 * 0.01 * 0.01 <? 0.001) = true).
Proof.
  intros Hd HX HY.
  apply abs_maxMomentum_cases in HX, HY.
  assert (H1 : auto_rotates (animate s) = true).
  { unfold auto_rotates.
    rewrite animate_isDragging, animate_momentumX, animate_momentumY, Hd.
    destruct HX as [-> | ->], HY as [-> | ->]; reflexivity. }
  split; [|split].
  - split.
    + destruct s; cbn in Hd, HX, HY; subst.
      destruct HX as [-> | ->], HY as [-> | ->];
        unfold animate; assignments; reflexivity.
    + rewrite animate_momentumX, animate_momentumY, Hd.
      destruct HX as [-> | ->], HY as [-> | ->]; repeat split; reflexivity.
  - intros k Hk. destruct k as [|k]; [lia|]. clear Hk.
    assert (Hk : isDragging (Nat.iter (S k) animate s) = false)
      by now rewrite animate_iter_isDragging.
    assert (Ha : auto_rotates (Nat.iter (S k) animate s) = true).
    { rewrite Nat.iter_succ_r. apply auto_rotates_iter; [|exact H1].
      now rewrite animate_isDragging. }
    rewrite (Nat.iter_succ (S k)). revert Hk Ha.
    generalize (Nat.iter (S k) animate s). run_animate.
  - cbn [Nat.iter nat_rect].
    rewrite !animate_momentumX, !animate_momentumY, !animate_isDragging, Hd.
    destruct HX as [-> | ->], HY as [-> | ->]; repeat split; reflexivity.
Qed.

Lemma auto_rotation_from_second_frame_witness :
  earth_rotation_y (animate flung) = earth_rotation_y flung + momentumX flung
  /\ earth_rotation_y (Nat.iter 2 animate flung)
     = earth_rotation_y (Nat.iter 1 animate flung)
       + momentumX (Nat.iter 1 animate flung) + 0.009
  /\ Math.abs (momentumX (Nat.iter 3 animate flung)) = 0.15 * 0.01 * 0.01 * 0.01.
Proof.
  destruct (auto_rotation_from_second_frame flung eq_refl eq_refl eq_refl)
    as ((H0 & _) & H1 & H3 & _).
  split; [exact H0|]. split; [exact (H1 1%nat (le_n 1))|exact H3].
Defined.

(** C3, as claimed, fails: with momentum 0.15 on both axes and no drag, it
    is not so that the three frames before the fourth turn the globe by the
    momentum alone; the second one adds the 0.009 of auto-rotation, which
    takes rotation.y to 0.3105 where the momentum alone gives 0.3015. *)
Lemma auto_rotation_before_fourth_frame :
  isDragging flung = false
  /\ Math.abs (momentumX flung) = 0.15 /\ Math.abs (momentumY flung) = 0.15
  /\ ~ (forall k, (k < 3)%nat ->
          earth_rotation_y (Nat.iter (S k) animate flung)
          = earth_rotation_y (Nat.iter k animate flung)
            + momentumX (Nat.iter k animate flung)).
Proof.
  repeat split. intros H. specialize (H 1%nat ltac:(lia)).
  apply (f_equal (fun v => v =? 0.15 + 0.15 + 0.15 * 0.01)) in H.
  vm_compute in H. discriminate H.
Qed.

(** ** Era selection *)

(** The five era keys are own properties, bound to their paths. *)
Lemma eraTextures_known :
  Get eraTextures "modern" = Str "textures/earth_night.jpg"
  /\ Get eraTextures "ancient" = Str "textures/earth old.jpg"
  /\ Get eraTextures "prehistoric" = Str "dinoera.jpg"
  /\ Get eraTextures "dinosaurs" = Str "textures/clouds.png"
  /\ Get eraTextures "formation" = Str "textures/eartrh_bump.jpg".
Proof. repeat split; vm_compute; reflexivity. Qed.

(** Selecting one of the five eras loads its texture. *)
Lemma era_known_loads (s : State) :
  eraSelector_change "modern" s = loadTexture (Str "textures/earth_night.jpg") s
  /\ eraSelector_change "ancient" s = loadTexture (Str "textures/earth old.jpg") s
  /\ eraSelector_change "prehistoric" s = loadTexture (Str "dinoera.jpg") s
  /\ eraSelector_change "dinosaurs" s = loadTexture (Str "textures/clouds.png") s
  /\ eraSelector_change "formation" s = loadTexture (Str "textures/eartrh_bump.jpg") s.
Proof.
  destruct eraTextures_known as (H1 & H2 & H3 & H4 & H5).
  unfold eraSelector_change.
  rewrite H1, H2, H3, H4, H5. repeat split.
Qed.

(** The era table has no other own property. *)
Lemma eraTextures_own (key : string) :
  is_Some (eraTextures !! key) <->
  key ∈ ["modern"; "ancient"; "prehistoric"; "dinosaurs"; "formation"].
Proof.
  rewrite !elem_of_cons, elem_of_nil. split.
  - intros [path H]. unfold eraTextures in H.
    repeat (apply lookup_insert_Some in H as [[<- _]|[_ H]]; [tauto|]).
    apply lookup_singleton_Some in H as [<- _]. tauto.
  - intros [->|[->|[->|[->|[->|[]]]]]]; eexists; vm_compute; reflexivity.
Qed.

(** A key that is neither an era nor the name of a property inherited from
    [Object.prototype] is ignored: no state change, no call. *)
Lemma era_unknown_ignored (key : string) (s : State) :
  eraTextures !! key = None -> Object_prototype !! key = None ->
  eraSelector_change key s = s.
Proof.
  intros H1 H2. unfold eraSelector_change, Get. now rewrite H1, H2.
Qed.

Lemma era_unknown_example (s : State) : eraSelector_change "unknown" s = s.
Proof. apply era_unknown_ignored; vm_compute; reflexivity. Qed.

(** C8 at the key "constructor": it is none of the five eras, yet the
    lookup finds the property every object inherits, the test passes, and
    loadTexture is called with it: the colour changes to the placeholder and
    a fetch is started. *)
Theorem era_inherited_key_loads :
  eraTextures !! "constructor" = None
  /\ eraSelector_change "constructor" constructed
     = loadTexture (Builtin "Object") constructed
  /\ earth_material_color constructed = 0xffffff%Z
  /\ earth_material_color (eraSelector_change "constructor" constructed) = 0x333333%Z
  /\ calls (eraSelector_change "constructor" constructed)
     = [textureLoader_load (Builtin "Object")].
Proof. repeat split; vm_compute; reflexivity. Qed.

(** * Further properties of the script *)

(** ** Viewport *)

Lemma mul_viewport_not_nan v : is_nan v = false -> is_nan (v * 0.8) = false.
Proof.
  rewrite !is_nan_spec, mul_spec. unfold SF64mul, SFmul. sf_const 0.8.
  destruct (Prim2SF v) as [s|s| |s m e]; try discriminate; intros _; try reflexivity.
  match goal with |- context [binary_round_aux ?p ?q ?s (Zpos ?m) ?e ?l] =>
    pose proof (binary_round_aux_not_nan s m e) as H;
    destruct (binary_round_aux p q s (Zpos m) e l) end; congruence.
Qed.

Lemma Math_min_400 v :
  Math.min [400; v] = if is_nan v then nan else if v <? 400 then v else 400.
Proof.
  destruct (is_nan v) eqn:Hnan.
  - unfold Math.min. cbn [existsb]. rewrite Hnan. reflexivity.
  - rewrite Math_min_pair by (reflexivity || assumption).
    replace (is_pos_zero 400) with false by reflexivity.
    now rewrite andb_false_r.
Qed.

(** X1. resizeRenderer makes the render target square with side
    min(400, 0.8 * innerWidth), never above 400, fixes the camera aspect at
    1, recomputes the projection, and changes nothing else. *)
Theorem resize_square_capped (innerWidth : float) (s : State) :
  is_nan innerWidth = false ->
  let size := Math.min [400; innerWidth * 0.8] in
  resizeRenderer innerWidth s =
  {| currentZoom := currentZoom s;
     camera_position_z := camera_position_z s;
     camera_aspect := 1;
     earth_rotation_x := earth_rotation_x s;
     earth_rotation_y := earth_rotation_y s;
     earth_material_color := earth_material_color s;
     earth_material_map := earth_material_map s;
     earth_material_needsUpdate := earth_material_needsUpdate s;
     isDragging := isDragging s;
     previousMousePosition := previousMousePosition s;
     momentumX := momentumX s;
     momentumY := momentumY s;
     calls := calls s ++ [renderer_setSize size size; camera_updateProjectionMatrix] |}
  /\ (size <=? 400) = true
  /\ ((innerWidth * 0.8 <? 400) = true -> size = innerWidth * 0.8)
  /\ ((innerWidth * 0.8 <? 400) = false -> size = 400).
Proof.
  intros Hnan size. split.
  - destruct s. unfold resizeRenderer. assignments. now rewrite <- app_assoc.
  - subst size. rewrite Math_min_400, (mul_viewport_not_nan _ Hnan).
    destruct (innerWidth * 0.8 <? 400) eqn:E.
    + split; [now apply ltb_leb|]. split; [reflexivity|discriminate].
    + split; [reflexivity|]. split; [discriminate|reflexivity].
Qed.

Lemma resize_square_capped_witness :
  (Math.min [400; 300 * 0.8] <=? 400) = true
  /\ Math.min [400; 1000 * 0.8] = 400.
Proof.
  destruct (resize_square_capped 300 constructed eq_refl) as (_ & H1 & _).
  destruct (resize_square_capped 1000 constructed eq_refl) as (_ & _ & _ & H2).
  split; [exact H1|exact (H2 eq_refl)].
Defined.

(** ** What each kind of event leaves alone *)

Lemma dispatch_camera (e : Event) (s : State) :
  camera_position_z s = currentZoom s /\ camera_aspect s = 1 ->
  camera_position_z (dispatch e s) = currentZoom (dispatch e s)
  /\ camera_aspect (dispatch e s) = 1.
Proof.
  destruct s, e; cbn [dispatch camera_position_z currentZoom camera_aspect];
    intros [H1 H2]; subst; handler_cases; split; reflexivity.
Qed.

Lemma run_camera (events : list Event) (s : State) :
  camera_position_z s = currentZoom s /\ camera_aspect s = 1 ->
  camera_position_z (run events s) = currentZoom (run events s)
  /\ camera_aspect (run events s) = 1.
Proof.
  revert s. induction events as [|e events IH]; intros s Hs; [exact Hs|].
  cbn [run fold_left]. apply IH. now apply dispatch_camera.
Qed.

(** X3. Along every run of events from start-up the camera distance
    equals currentZoom and the camera aspect is 1. *)
Theorem camera_follows_zoom (innerWidth : float) (events : list Event) :
  let s := run events (startup innerWidth) in
  camera_position_z s = currentZoom s /\ camera_aspect s = 1.
Proof.
  apply run_camera.
  unfold startup, resizeRenderer, loadTexture, animate, constructed.
  assignments. split; reflexivity.
Qed.

Lemma dispatch_drag_flag (e : Event) (s : State) :
  isDragging (dispatch e s) = drag_flag (isDragging s) e.
Proof.
  destruct s, e; cbn [dispatch drag_flag isDragging]; handler_cases; reflexivity.
Qed.

(** X4. The drag flag after a run of events is decided by the events
    alone: it is raised by the last press or touch start and lowered by the
    last release, leave or touch end, whichever came later; no other handler
    writes it. *)
Theorem drag_flag_follows_events (events : list Event) (s : State) :
  isDragging (run events s) = fold_left drag_flag events (isDragging s).
Proof.
  revert s. induction events as [|e events IH]; intros s; [reflexivity|].
  cbn [run fold_left]. fold (run events (dispatch e s)).
  now rewrite IH, dispatch_drag_flag.
Qed.

Lemma animate_dragging_fields (n : nat) (s : State) :
  isDragging s = true ->
  let s' := Nat.iter n animate s in
  isDragging s' = true
  /\ earth_rotation_x s' = earth_rotation_x s
  /\ earth_rotation_y s' = earth_rotation_y s
  /\ momentumX s' = momentumX s /\ momentumY s' = momentumY s
  /\ previousMousePosition s' = previousMousePosition s.
Proof.
  intros H. induction n as [|n IH]; [now repeat split|].
  cbv zeta in *. destruct IH as (Hd & Hrx & Hry & Hmx & Hmy & Hp).
  rewrite Nat.iter_succ, animate_dragging_frame by exact Hd.
  destruct (Nat.iter n animate s). cbn in *. now repeat split.
Qed.

(** X5. Frames that run while a drag is active change neither the
    rotation nor the momenta: the globe held still keeps its momentum, and
    a press, any number of frames and a release leave rotation and momenta
    as they were before the press. *)
Theorem hold_keeps_momentum (clientX clientY : float) (n : nat) (s : State) :
  let s' := mouseup (Nat.iter n animate (mousedown clientX clientY s)) in
  isDragging s' = false
  /\ earth_rotation_x s' = earth_rotation_x s
  /\ earth_rotation_y s' = earth_rotation_y s
  /\ momentumX s' = momentumX s
  /\ momentumY s' = momentumY s.
Proof.
  cbv zeta.
  destruct (animate_dragging_fields n (mousedown clientX clientY s))
    as (_ & Hrx & Hry & Hmx & Hmy & _); [now destruct s|].
  destruct (Nat.iter n animate (mousedown clientX clientY s)).
  destruct s. cbn in *. now repeat split.
Qed.

Lemma dispatch_zoom_untouched (e : Event) (s : State) :
  is_zoom_click e = false -> currentZoom (dispatch e s) = currentZoom s.
Proof.
  destruct s, e; cbn [dispatch is_zoom_click currentZoom]; intros H;
    try discriminate; handler_cases; reflexivity.
Qed.

Lemma dispatch_globe_untouched (e : Event) (s : State) :
  moves_globe e = false ->
  earth_rotation_x (dispatch e s) = earth_rotation_x s
  /\ earth_rotation_y (dispatch e s) = earth_rotation_y s
  /\ momentumX (dispatch e s) = momentumX s
  /\ momentumY (dispatch e s) = momentumY s.
Proof.
  destruct s, e; cbn [dispatch moves_globe]; intros H;
    try discriminate; handler_cases; repeat split; reflexivity.
Qed.

(** X6. Only the zoom buttons change the distance: a run of events with
    no zoom click leaves currentZoom as it was. *)
Theorem only_zoom_clicks_zoom (events : list Event) (s : State) :
  forallb (fun e => negb (is_zoom_click e)) events = true ->
  currentZoom (run events s) = currentZoom s.
Proof.
  revert s. induction events as [|e events IH]; intros s H; [reflexivity|].
  cbn [forallb] in H. apply andb_prop in H as [He H].
  cbn [run fold_left]. fold (run events (dispatch e s)). rewrite IH by exact H.
  apply dispatch_zoom_untouched. now destruct (is_zoom_click e).
Qed.

Lemma only_zoom_clicks_zoom_witness :
  currentZoom (run [canvas_mousedown 1 2; canvas_mousemove 30 40; animation_frame;
                    window_resize 800; eraSelector_onchange "ancient"]
                 (zoomIn constructed))
  = currentZoom (zoomIn constructed).
Proof.
  exact (only_zoom_clicks_zoom
           [canvas_mousedown 1 2; canvas_mousemove 30 40; animation_frame;
            window_resize 800; eraSelector_onchange "ancient"]
           (zoomIn constructed) eq_refl).
Defined.

(** X7. Only drag moves and frames turn the globe: a run of events with
    neither leaves the rotation and the momenta as they were, whatever is
    zoomed, resized, pressed, released, selected or loaded meanwhile. *)
Theorem only_moves_and_frames_turn (events : list Event) (s : State) :
  forallb (fun e => negb (moves_globe e)) events = true ->
  earth_rotation_x (run events s) = earth_rotation_x s
  /\ earth_rotation_y (run events s) = earth_rotation_y s
  /\ momentumX (run events s) = momentumX s
  /\ momentumY (run events s) = momentumY s.
Proof.
  revert s. induction events as [|e events IH]; intros s H; [now repeat split|].
  cbn [forallb] in H. apply andb_prop in H as [He H].
  cbn [run fold_left]. fold (run events (dispatch e s)).
  destruct (IH (dispatch e s) H) as (H1 & H2 & H3 & H4).
  destruct (dispatch_globe_untouched e s) as (G1 & G2 & G3 & G4);
    [now destruct (moves_globe e)|].
  rewrite H1, H2, H3, H4. now repeat split.
Qed.

Lemma only_moves_and_frames_turn_witness :
  earth_rotation_y (run [zoomOutBtn_click; canvas_mouseup; texture_failed "404";
                         canvas_touchstart [{| x := 5; y := 6 |}]] flung)
  = earth_rotation_y flung.
Proof.
  exact (proj1 (proj2 (only_moves_and_frames_turn
           [zoomOutBtn_click; canvas_mouseup; texture_failed "404";
            canvas_touchstart [{| x := 5; y := 6 |}]] flung eq_refl))).
Defined.

(** ** The material along a run *)

Lemma dispatch_material (e : Event) (s : State) :
  (earth_material_color (dispatch e s) = earth_material_color s
   \/ earth_material_color (dispatch e s) = 0x333333%Z
   \/ earth_material_color (dispatch e s) = 0x3366cc%Z)
  /\ (earth_material_map (dispatch e s) = earth_material_map s
      \/ exists texture, earth_material_map (dispatch e s) = Some texture)
  /\ (earth_material_needsUpdate (dispatch e s) = earth_material_needsUpdate s
      \/ earth_material_needsUpdate (dispatch e s) = true).
Proof.
  destruct s, e; cbn [dispatch]; handler_cases; repeat split; eauto.
Qed.

(** X8. Once the script has started, the material colour is the placeholder
    0x333333 or the fallback 0x3366cc after every event: the initial colour
    of the material never comes back. *)
Theorem colour_placeholder_or_fallback (innerWidth : float) (events : list Event) :
  let s := run events (startup innerWidth) in
  earth_material_color s = 0x333333%Z \/ earth_material_color s = 0x3366cc%Z.
Proof.
  cbv zeta.
  assert (H0 : earth_material_color (startup innerWidth) = 0x333333%Z
               \/ earth_material_color (startup innerWidth) = 0x3366cc%Z).
  { left. unfold startup, resizeRenderer, loadTexture, animate, constructed.
    assignments. reflexivity. }
  revert H0. generalize (startup innerWidth).
  induction events as [|e events IH]; intros s Hs; [exact Hs|].
  cbn [run fold_left]. apply IH.
  destruct (dispatch_material e s) as ([-> | [-> | ->]] & _); auto.
Qed.

(** X9. An installed texture is never removed and needsUpdate is never
    reset: after any run of events from a state with a map, there is a map,
    and needsUpdate, once true, is true. *)
Theorem map_never_cleared (events : list Event) (s : State) (texture : Texture) :
  earth_material_map s = Some texture ->
  (exists texture', earth_material_map (run events s) = Some texture')
  /\ (earth_material_needsUpdate s = true ->
      earth_material_needsUpdate (run events s) = true).
Proof.
  revert s texture. induction events as [|e events IH]; intros s texture Hs.
  - split; [exists texture; exact Hs|auto].
  - cbn [run fold_left]. fold (run events (dispatch e s)).
    destruct (dispatch_material e s) as (_ & Hm & Hn).
    assert (Hmap : exists t, earth_material_map (dispatch e s) = Some t).
    { destruct Hm as [-> | Hm]; [exists texture; exact Hs|exact Hm]. }
    destruct Hmap as [t Ht]. destruct (IH _ _ Ht) as [H1 H2].
    split; [exact H1|]. intros Hu. apply H2.
    destruct Hn as [-> | ->]; auto.
Qed.

Lemma map_never_cleared_witness :
  (exists texture', earth_material_map
     (run [eraSelector_onchange "ancient"; texture_failed "404"; animation_frame]
        (onLoad (Image "textures/earth_night.jpg") constructed)) = Some texture')
  /\ earth_material_needsUpdate
       (run [eraSelector_onchange "ancient"; texture_failed "404"; animation_frame]
          (onLoad (Image "textures/earth_night.jpg") constructed)) = true.
Proof.
  destruct (map_never_cleared
              [eraSelector_onchange "ancient"; texture_failed "404"; animation_frame]
              (onLoad (Image "textures/earth_night.jpg") constructed)
              (Image "textures/earth_night.jpg") eq_refl) as [H1 H2].
  split; [exact H1|exact (H2 eq_refl)].
Defined.

Lemma dispatch_colour_kept (e : Event) (s : State) :
  writes_colour e = false ->
  earth_material_color (dispatch e s) = earth_material_color s.
Proof.
  destruct s, e; cbn [dispatch writes_colour]; intros H; try discriminate;
    handler_cases; reflexivity.
Qed.

(** X10. After a failed load the colour stays the fallback 0x3366cc until
    another era is selected or another load fails: a texture that arrives
    later, from an earlier or concurrent request, is installed as the map
    but does not bring the colour back. *)
Theorem fallback_colour_sticks (error : string) (events : list Event) (s : State) :
  forallb (fun e => negb (writes_colour e)) events = true ->
  earth_material_color (run events (onError error s)) = 0x3366cc%Z.
Proof.
  assert (H0 : earth_material_color (onError error s) = 0x3366cc%Z)
    by now destruct s.
  revert H0. generalize (onError error s).
  induction events as [|e events IH]; intros s0 Hs H; [exact Hs|].
  cbn [forallb] in H. apply andb_prop in H as [He H].
  cbn [run fold_left]. apply IH; [|exact H].
  rewrite dispatch_colour_kept; [exact Hs|now destruct (writes_colour e)].
Qed.

Lemma fallback_colour_sticks_witness :
  earth_material_color
    (run [texture_loaded (Image "textures/clouds.png"); animation_frame]
       (onError "404" (loadTexture (Str "textures/clouds.png") constructed)))
  = 0x3366cc%Z.
Proof.
  exact (fallback_colour_sticks "404"
           [texture_loaded (Image "textures/clouds.png"); animation_frame]
           (loadTexture (Str "textures/clouds.png") constructed) eq_refl).
Defined.

(** ** Era selection, key by key *)

Lemma loadTexture_changes (url : Value) (s : State) : loadTexture url s <> s.
Proof.
  destruct s. unfold loadTexture. assignments. intros H.
  injection H as _ H. apply (f_equal length) in H.
  rewrite length_app in H. cbn in H. lia.
Qed.

Lemma Object_prototype_truthy (key : string) (v : Value) :
  Object_prototype !! key = Some v -> ToBoolean v = true.
Proof.
  unfold Object_prototype. intros H.
  repeat (apply lookup_insert_Some in H as [[_ <-]|[_ H]]; [reflexivity|]).
  apply lookup_singleton_Some in H as [_ <-]. reflexivity.
Qed.

Lemma eraTextures_truthy (key path : string) :
  eraTextures !! key = Some path -> ToBoolean (Str path) = true.
Proof.
  unfold eraTextures. intros H.
  repeat (apply lookup_insert_Some in H as [[_ <-]|[_ H]]; [reflexivity|]).
  apply lookup_singleton_Some in H as [_ <-]. reflexivity.
Qed.

(** X11. What a change of the selector does, for every value: if the value
    is one of the five era keys or the name of a property objects inherit,
    loadTexture is called with what the lookup returns and the state
    changes; for every other value the state is left exactly as it was. *)
Theorem era_change_by_key (key : string) (s : State) :
  (is_Some (eraTextures !! key) \/ is_Some (Object_prototype !! key) ->
   eraSelector_change key s = loadTexture (Get eraTextures key) s
   /\ eraSelector_change key s <> s)
  /\ (eraTextures !! key = None /\ Object_prototype !! key = None ->
      eraSelector_change key s = s).
Proof.
  split.
  - intros H.
    assert (Ht : ToBoolean (Get eraTextures key) = true).
    { unfold Get. destruct (eraTextures !! key) as [path|] eqn:E1.
      - exact (eraTextures_truthy key path E1).
      - destruct H as [[? H]|[v H]]; [discriminate|].
        rewrite H. exact (Object_prototype_truthy key v H). }
    unfold eraSelector_change. rewrite Ht. split; [reflexivity|].
    apply loadTexture_changes.
  - intros [H1 H2]. unfold eraSelector_change, Get. now rewrite H1, H2.
Qed.

(** ** Auto-rotation along the frames *)

(** X12. Once both decayed momenta are below 0.001 and no drag is
    active, the frame run in that state and every idle frame after it add
    0.009 to rotation.y on top of the momentum: without a drag the momentum
    never climbs back to the threshold. *)
Theorem auto_rotation_persists (n : nat) (s : State) :
  isDragging s = false ->
  (Math.abs (momentumX s * 0.01) <? 0.001) = true ->
  (Math.abs (momentumY s * 0.01) <? 0.001) = true ->
  earth_rotation_y (Nat.iter (S n) animate s)
  = earth_rotation_y (Nat.iter n animate s) + momentumX (Nat.iter n animate s)
    + 0.009.
Proof.
  intros Hd HX HY.
  assert (Hn : isDragging (Nat.iter n animate s) = false)
    by now rewrite animate_iter_isDragging.
  assert (Ha : auto_rotates (Nat.iter n animate s) = true).
  { apply auto_rotates_iter; [exact Hd|].
    unfold auto_rotates. rewrite Hd. cbn [negb andb].
    change momentumDecay with 0.01. now rewrite HX, HY. }
  rewrite Nat.iter_succ. revert Hn Ha.
  generalize (Nat.iter n animate s). run_animate.
Qed.

Lemma auto_rotation_persists_witness :
  earth_rotation_y (Nat.iter 8 animate (animate flung))
  = earth_rotation_y (Nat.iter 7 animate (animate flung))
    + momentumX (Nat.iter 7 animate (animate flung)) + 0.009.
Proof.
  exact (auto_rotation_persists 7 (animate flung) eq_refl eq_refl eq_refl).
Defined.

Lemma bounded_momentum_auto_rotates (s : State) :
  isDragging s = false -> momentum_bounded s = true ->
  auto_rotates (animate s) = true.
Proof.
  unfold auto_rotates, momentum_bounded, Math.abs.
  rewrite animate_isDragging, animate_momentumX, animate_momentumY.
  intros -> H. apply andb_prop in H as [HX HY]. cbn [negb andb].
  assert (Hstep : forall v, (abs v <=? maxMomentum) = true ->
                            (abs (v * momentumDecay * momentumDecay) <? 0.001) = true).
  { intros v Hv. apply exponent_abs_lt.
    eapply exponent_le_mono;
      [|apply decay_exponent, decay_exponent, abs_le_exponent, Hv]. lia. }
  now rewrite !Hstep.
Qed.

(** X13. In every state the page can reach, if no drag is active then
    from the second frame on, every frame adds 0.009 to rotation.y on top of
    the momentum: released momentum, at most 0.15, is below the threshold
    after two decays. *)
Theorem auto_rotation_resumes (innerWidth : float) (events : list Event) (n : nat) :
  forallb pointer_finite events = true ->
  let s := run events (startup innerWidth) in
  isDragging s = false ->
  earth_rotation_y (Nat.iter (S (S n)) animate s)
  = earth_rotation_y (Nat.iter (S n) animate s)
    + momentumX (Nat.iter (S n) animate s) + 0.009.
Proof.
  intros Hev s Hd.
  assert (Hn : isDragging (Nat.iter (S n) animate s) = false)
    by now rewrite animate_iter_isDragging.
  assert (Ha : auto_rotates (Nat.iter (S n) animate s) = true).
  { rewrite Nat.iter_succ_r. apply auto_rotates_iter.
    - now rewrite animate_isDragging.
    - apply bounded_momentum_auto_rotates; [exact Hd|].
      exact (proj1 (run_momentum_invariant events (startup innerWidth) Hev
                      (startup_momentum_invariant innerWidth))). }
  rewrite (Nat.iter_succ (S n)). revert Hn Ha.
  generalize (Nat.iter (S n) animate s). run_animate.
Qed.

Lemma auto_rotation_resumes_witness :
  let s := run [canvas_mousedown 0 0; canvas_mousemove 400 (-90); canvas_mouseup]
             (startup 1280) in
  earth_rotation_y (animate (animate s))
  = earth_rotation_y (animate s) + momentumX (animate s) + 0.009.
Proof.
  exact (auto_rotation_resumes 1280
           [canvas_mousedown 0 0; canvas_mousemove 400 (-90); canvas_mouseup]
           0 eq_refl eq_refl).
Defined.

Lemma era_change_by_key_witness :
  eraSelector_change "toString" constructed <> constructed
  /\ eraSelector_change "dinosaurs" constructed
     = loadTexture (Str "textures/clouds.png") constructed
  /\ eraSelector_change "" constructed = constructed.
Proof.
  split; [|split].
  - apply (proj1 (era_change_by_key "toString" constructed)).
    right. vm_compute. eexists. reflexivity.
  - destruct (proj1 (era_change_by_key "dinosaurs" constructed)) as [H _];
      [left; vm_compute; eexists; reflexivity|].
    rewrite H. vm_compute. reflexivity.
  - apply (proj2 (era_change_by_key "" constructed)). split; vm_compute; reflexivity.
Defined.

(** ** The zoom, step by step *)

Section ZoomSteps.
Local Open Scope Z_scope.

(** Rounding at exponent -54 a mantissa between 2^51 and 2^57: the result
    is a positive finite number that differs from the exact value by less
    than one unit of its last place. *)
Lemma binary_round_units p :
  2 ^ 51 <= Zpos p < 2 ^ 57 ->
  exists q e',
    binary_round prec emax false p (-54) = S754_finite false q e'
    /\ -55 <= e' <= -49
    /\ (e' = -55 -> Zpos p < 2 ^ 52)
    /\ (-54 <= e' -> Zpos p - 15 <= Zpos q * 2 ^ (e' + 54) <= Zpos p + 16).
Proof.
  intros [Hlo Hhi].
  destruct (binary_round_exact false p (-54)) as (r & Hr1 & Hr2 & ->).
  rewrite fexp_binary64 in *.
  pose proof (Zdigits2_le (Zpos p) 57 ltac:(lia) ltac:(lia) Hhi) as Hd57.
  pose proof (Zdigits2_gt (Zpos p) 51 ltac:(lia) Hlo) as Hd51.
  pose proof (Zdigits2_bounds p) as [Hplo Hphi].
  assert (Hd53 : Zdigits2 (Zpos p) <= 53 -> Zdigits2 r = 53).
  { intros Hle. rewrite Hr1 by lia. rewrite Zdigits2_mul_pow2 by lia. lia. }
  set (dS := Zdigits2 (Zpos p)) in *. clearbody dS.
  replace (Z.max (dS + -54 - 53) (-1074)) with (dS - 107) in * by lia.
  assert (HdS : dS = 52 \/ dS = 53 \/ dS = 54 \/ dS = 55 \/ dS = 56 \/ dS = 57) by lia.
  assert (Hr : 2 ^ 52 <= r <= 2 ^ 53
               /\ (dS <= 53 -> r = Zpos p * 2 ^ (53 - dS))
               /\ (54 <= dS ->
                   Zpos p - (2 ^ (dS - 53) - 1) <= r * 2 ^ (dS - 53)
                   <= Zpos p + 2 ^ (dS - 53))).
  { destruct HdS as [->|[->|[->|[->|[->| ->]]]]];
      try (specialize (Hr1 ltac:(lia)); cbn in Hr1, Hplo, Hphi;
           repeat split; try lia);
      try (specialize (Hr2 ltac:(lia)); cbn in Hr2, Hplo, Hphi; revert Hr2;
           change (2 ^ (54 - 53)) with 2; change (2 ^ (55 - 53)) with 4;
           change (2 ^ (56 - 53)) with 8; change (2 ^ (57 - 53)) with 16;
           Z.div_mod_to_equations; lia). }
  destruct Hr as (Hr52 & Hrexact & Hrnear). clear Hr1 Hr2 Hd53.
  pose proof (Zdigits2_gt r 52 ltac:(lia) ltac:(lia)) as Hdr53.
  pose proof (Zdigits2_le r 54 ltac:(lia) ltac:(lia) ltac:(lia)) as Hdr54.
  assert (Hr53 : Zdigits2 r = 54 -> r = 2 ^ 53).
  { intros Hc. destruct r as [|q|q]; try lia.
    pose proof (Zdigits2_bounds q) as [Hq _]. rewrite Hc in Hq.
    change (2 ^ (54 - 1)) with (2 ^ 53) in Hq. lia. }
  assert (Hr53' : Zdigits2 r = 53 -> r < 2 ^ 53).
  { intros Hc. destruct r as [|q|q]; try lia.
    pose proof (Zdigits2_bounds q) as [_ Hq]. rewrite Hc in Hq. lia. }
  destruct (round_finish_cases false r (dS - 107) ltac:(lia)) as
    [[Hz _]|(q & Hq & [[Hle ->]|[Hgt _]])];
    rewrite fexp_binary64 in *;
    set (dr := Zdigits2 r) in *; clearbody dr;
    assert (Hn2 : Z.max 0 (Z.max (dr + (dS - 107) - 53) (-1074) - (dS - 107)) = dr - 53)
      by lia;
    rewrite Hn2 in *; clear Hn2.
  - exfalso. assert (Hdr : dr = 53 \/ dr = 54) by lia.
    destruct Hdr as [->| ->]; cbn in Hz; revert Hz; Z.div_mod_to_equations; lia.
  - exists q, (dS - 107 + (dr - 53)).
    split; [reflexivity|].
    assert (Hdr : dr = 53 \/ dr = 54) by lia.
    destruct Hdr as [->| ->].
    + change (53 - 53) with 0 in *. rewrite Z.pow_0_r, Z.div_1_r in Hq.
      rewrite Z.add_0_r. rewrite <- Hq in *. specialize (Hr53' eq_refl).
      split; [lia|]. split.
      * intros He. assert (dS = 52) by lia. subst dS.
        rewrite Hrexact in Hr53' by lia. cbn in Hr53'. lia.
      * intros He.
        destruct HdS as [->|[->|[->|[->|[->| ->]]]]]; try lia;
          cbn in Hrexact, Hrnear |- *; lia.
    + specialize (Hr53 eq_refl). subst r.
      change (2 ^ (54 - 53)) with 2 in Hq. change (2 ^ 53 / 2) with (2 ^ 52) in Hq.
      rewrite <- Hq.
      assert (Hge : 54 <= dS).
      { destruct (Z.le_gt_cases 54 dS) as [|Hc]; [assumption|exfalso].
        specialize (Hrexact ltac:(lia)).
        assert (HdS' : dS = 52 \/ dS = 53) by lia.
        destruct HdS' as [->| ->]; cbn in Hrexact, Hphi; lia. }
      split; [lia|]. split; [lia|]. intros _.
      specialize (Hrnear Hge).
      destruct HdS as [->|[->|[->|[->|[->| ->]]]]]; try lia;
        cbn in Hrnear, Hphi |- *; lia.
  - exfalso. lia.
Qed.

(** A distance in range is between 0.5 and 3 in units of 2^-54. *)
Lemma zoom_units_within d :
  within 0.5 3 d = true -> 2 ^ 53 <= zoom_units d <= 3 * 2 ^ 54.
Proof.
  intros H. destruct (within_zoom_finite d H) as (m & e & Ed & He & Hm & Hm3).
  unfold zoom_units. rewrite Ed.
  assert (He' : e = -53 \/ e = -52 \/ e = -51) by lia.
  destruct He' as [->|[->| ->]]; cbn; lia.
Qed.

(** In range, the order of the numbers is the order of their units. *)
Lemma zoom_units_leb a b :
  within 0.5 3 a = true -> within 0.5 3 b = true ->
  zoom_units a <= zoom_units b -> (a <=? b)%float = true.
Proof.
  intros Ha Hb.
  destruct (within_zoom_finite a Ha) as (ma & ea & Ea & Hea & Hma & _).
  destruct (within_zoom_finite b Hb) as (mb & eb & Eb & Heb & Hmb & _).
  unfold zoom_units. rewrite FloatAxioms.leb_spec, Ea, Eb.
  assert (Hea' : ea = -53 \/ ea = -52 \/ ea = -51) by lia.
  assert (Heb' : eb = -53 \/ eb = -52 \/ eb = -51) by lia.
  destruct Hea' as [->|[->| ->]], Heb' as [->|[->| ->]]; cbn;
    try reflexivity; try lia;
    intros Hle; destruct (Pos_compare_cont_spec ma mb); try reflexivity; lia.
Qed.

(** Adding 0.3 to a distance in range gains 0.3 up to rounding; taking 0.3
    away loses 0.3 up to rounding. *)
Lemma add_step_units d :
  within 0.5 3 d = true ->
  zoom_units d + 5404319552844580 <= zoom_units (d + 0.3).
Proof.
  intros H. destruct (within_zoom_finite d H) as (m & e & Ed & He & Hm & _).
  unfold zoom_units at 2. unfold zoom_units. rewrite add_spec, Ed. sf_const 0.3%float.
  unfold SF64add, SFadd. replace (Z.min e (-54)) with (-54) by lia.
  destruct (shl_align_spec m e (-54)) as [_ H1].
  destruct (shl_align_spec 5404319552844595 (-54) (-54)) as [_ H2].
  cbn [cond_Zopp]. rewrite H1, H2.
  replace (Z.min e (-54)) with (-54) by lia.
  change (Z.min (-54) (-54)) with (-54). change (-54 - -54) with 0.
  rewrite Z.pow_0_r, Z.mul_1_r. clear H1 H2.
  replace (e - -54) with (e + 54) by lia.
  assert (HS : 2 ^ 53 <= Zpos m * 2 ^ (e + 54) < 2 ^ 56).
  { assert (He' : e = -53 \/ e = -52 \/ e = -51) by lia.
    destruct He' as [->|[->| ->]]; cbn; lia. }
  set (u := Zpos m * 2 ^ (e + 54)) in *. clearbody u.
  destruct (u + 5404319552844595) as [|p|p] eqn:ES; try lia.
  cbn [binary_normalize].
  destruct (binary_round_units p ltac:(lia)) as (q & e' & -> & He' & H55 & Hval).
  assert (-54 <= e') by lia. specialize (Hval ltac:(lia)). lia.
Qed.

Lemma sub_step_units d :
  within 0.5 3 d = true ->
  zoom_units (d - 0.3) <= zoom_units d - 5404319552844579.
Proof.
  intros H. destruct (within_zoom_finite d H) as (m & e & Ed & He & Hm & Hm3).
  unfold zoom_units at 1. unfold zoom_units. rewrite sub_spec, Ed. sf_const 0.3%float.
  unfold SF64sub, SFsub. replace (Z.min e (-54)) with (-54) by lia.
  destruct (shl_align_spec m e (-54)) as [_ H1].
  destruct (shl_align_spec 5404319552844595 (-54) (-54)) as [_ H2].
  cbn [cond_Zopp]. rewrite H1, H2.
  replace (Z.min e (-54)) with (-54) by lia.
  change (Z.min (-54) (-54)) with (-54). change (-54 - -54) with 0.
  rewrite Z.pow_0_r, Z.mul_1_r. clear H1 H2.
  replace (e - -54) with (e + 54) by lia.
  assert (HS : 2 ^ 53 <= Zpos m * 2 ^ (e + 54) <= 3 * 2 ^ 54).
  { assert (He' : e = -53 \/ e = -52 \/ e = -51) by lia.
    destruct He' as [->|[->| ->]]; cbn; lia. }
  set (u := Zpos m * 2 ^ (e + 54)) in *. clearbody u.
  destruct (u - 5404319552844595) as [|p|p] eqn:ES; try lia.
  cbn [binary_normalize].
  destruct (binary_round_units p ltac:(lia)) as (q & e' & -> & He' & H55 & Hval).
  destruct (Z.le_gt_cases (-54) e') as [Hc|Hc].
  - specialize (Hval Hc). lia.
  - replace e' with (-55) by lia. cbn. lia.
Qed.

(** One zoomOut from a distance in range reaches 3 or gains almost 0.3;
    one zoomIn reaches 0.5 or loses almost 0.3. *)
Lemma zoomOut_value_progress d :
  within 0.5 3 d = true ->
  Math.min [3; d + 0.3]%float = 3%float
  \/ (within 0.5 3 (Math.min [3; d + 0.3]%float) = true
      /\ zoom_units d + 5404319552844580 <= zoom_units (Math.min [3; d + 0.3]%float)).
Proof.
  intros H. pose proof (add_step_lower d H) as Hlo.
  destruct (leb_not_nan _ _ Hlo) as [_ Hnan].
  rewrite Math_min_three, Hnan.
  destruct (d + 0.3 <? 3)%float eqn:E; [right|now left].
  split; [|now apply add_step_units].
  unfold within. now rewrite Hlo, (ltb_leb _ _ E).
Qed.

Lemma zoomIn_value_progress d :
  within 0.5 3 d = true ->
  Math.max [0.5; d - 0.3]%float = 0.5%float
  \/ (within 0.5 3 (Math.max [0.5; d - 0.3]%float) = true
      /\ zoom_units (Math.max [0.5; d - 0.3]%float) <= zoom_units d - 5404319552844579).
Proof.
  intros H. pose proof (sub_step_upper d H) as Hup.
  destruct (leb_not_nan _ _ Hup) as [Hnan _].
  rewrite Math_max_half, Hnan.
  destruct (0.5 <? d - 0.3)%float eqn:E; [right|now left].
  split; [|now apply sub_step_units].
  unfold within. now rewrite Hup, (ltb_leb _ _ E).
Qed.

Lemma zoomOut_values_progress (k : nat) d :
  within 0.5 3 d = true ->
  Nat.iter k (fun d => Math.min [3; d + 0.3]%float) d = 3%float
  \/ (within 0.5 3 (Nat.iter k (fun d => Math.min [3; d + 0.3]%float) d) = true
      /\ zoom_units d + Z.of_nat k * 5404319552844580
         <= zoom_units (Nat.iter k (fun d => Math.min [3; d + 0.3]%float) d)).
Proof.
  intros H. induction k as [|k IH]; [right; split; [exact H|cbn; lia]|].
  rewrite Nat.iter_succ. destruct IH as [-> | [Hw Hu]]; [now left|].
  destruct (zoomOut_value_progress _ Hw) as [-> | [Hw' Hu']]; [now left|].
  right. split; [exact Hw'|lia].
Qed.

Lemma zoomIn_values_progress (k : nat) d :
  within 0.5 3 d = true ->
  Nat.iter k (fun d => Math.max [0.5; d - 0.3]%float) d = 0.5%float
  \/ (within 0.5 3 (Nat.iter k (fun d => Math.max [0.5; d - 0.3]%float) d) = true
      /\ zoom_units (Nat.iter k (fun d => Math.max [0.5; d - 0.3]%float) d)
         <= zoom_units d - Z.of_nat k * 5404319552844579).
Proof.
  intros H. induction k as [|k IH]; [right; split; [exact H|cbn; lia]|].
  rewrite Nat.iter_succ. destruct IH as [-> | [Hw Hu]]; [now left|].
  destruct (zoomIn_value_progress _ Hw) as [-> | [Hw' Hu']]; [now left|].
  right. split; [exact Hw'|lia].
Qed.

End ZoomSteps.

Lemma zoomIn_iter (n : nat) (s : State) :
  currentZoom (Nat.iter n zoomIn s)
  = Nat.iter n (fun d => Math.max [0.5; d - 0.3]) (currentZoom s).
Proof.
  induction n as [|n IH]; [reflexivity|].
  rewrite !Nat.iter_succ, <- IH. now destruct (Nat.iter n zoomIn s).
Qed.

(** X14. From any distance within [0.5, 3], nine zoomOut clicks in a row
    reach exactly 3 and nine zoomIn clicks in a row reach exactly 0.5, and
    further clicks of the same button stay there. *)
Theorem zoom_reaches_bounds (k : nat) (s : State) :
  within 0.5 3 (currentZoom s) = true ->
  currentZoom (Nat.iter (9 + k) zoomOut s) = 3
  /\ currentZoom (Nat.iter (9 + k) zoomIn s) = 0.5.
Proof.
  intros H. rewrite zoomOut_iter, zoomIn_iter, Nat.add_comm, !Nat.iter_add. split.
  - assert (H9 : Nat.iter 9 (fun d => Math.min [3; d + 0.3]) (currentZoom s) = 3).
    { destruct (zoomOut_values_progress 9 _ H) as [H9 | [Hw Hu]]; [exact H9|exfalso].
      pose proof (zoom_units_within _ H). pose proof (zoom_units_within _ Hw).
      cbn in *. lia. }
    rewrite H9. clear. induction k as [|k IH]; [reflexivity|].
    rewrite Nat.iter_succ, IH. reflexivity.
  - assert (H9 : Nat.iter 9 (fun d => Math.max [0.5; d - 0.3]) (currentZoom s) = 0.5).
    { destruct (zoomIn_values_progress 9 _ H) as [H9 | [Hw Hu]]; [exact H9|exfalso].
      pose proof (zoom_units_within _ H). pose proof (zoom_units_within _ Hw).
      cbn in *. lia. }
    rewrite H9. clear. induction k as [|k IH]; [reflexivity|].
    rewrite Nat.iter_succ, IH. reflexivity.
Qed.

Lemma zoom_reaches_bounds_witness :
  currentZoom (Nat.iter (9 + 2) zoomOut (zoomIn constructed)) = 3
  /\ currentZoom (Nat.iter (9 + 2) zoomIn (zoomIn constructed)) = 0.5.
Proof. exact (zoom_reaches_bounds 2 (zoomIn constructed) eq_refl). Defined.

(** X15. Within the range, zoomOut never brings the camera closer and
    zoomIn never takes it farther. *)
Theorem zoom_direction (s : State) :
  within 0.5 3 (currentZoom s) = true ->
  (currentZoom s <=? currentZoom (zoomOut s)) = true
  /\ (currentZoom (zoomIn s) <=? currentZoom s) = true.
Proof.
  intros H.
  replace (currentZoom (zoomOut s)) with (Math.min [3; currentZoom s + 0.3])
    by now destruct s.
  replace (currentZoom (zoomIn s)) with (Math.max [0.5; currentZoom s - 0.3])
    by now destruct s.
  pose proof H as Hw. unfold within in Hw. apply andb_prop in Hw as [Hlo Hhi].
  split.
  - destruct (zoomOut_value_progress _ H) as [-> | [Hw Hu]]; [exact Hhi|].
    apply zoom_units_leb; [exact H|exact Hw|lia].
  - destruct (zoomIn_value_progress _ H) as [-> | [Hw Hu]]; [exact Hlo|].
    apply zoom_units_leb; [exact Hw|exact H|lia].
Qed.

Lemma zoom_direction_witness :
  (currentZoom constructed <=? currentZoom (zoomOut constructed)) = true
  /\ (currentZoom (zoomIn constructed) <=? currentZoom constructed) = true.
Proof. exact (zoom_direction constructed eq_refl). Defined.

(** ** A press and a move on the spot *)

Lemma sub_self v : is_finite v = true -> v - v = 0.
Proof.
  rewrite is_finite_spec. intros H. apply Prim2SF_inj.
  rewrite sub_spec. sf_const 0. unfold SF64sub, SFsub.
  destruct (Prim2SF v) as [[]|[]| |s m e]; try discriminate; try reflexivity.
  rewrite Z.min_id. unfold shl_align. rewrite ?Z.sub_diag. cbn [fst].
  rewrite ?Z.sub_diag. reflexivity.
Qed.

(** X16. A press followed by a move event at the very same point stops the
    inertia: both momenta are zero whatever they were, and the frame that
    follows the release turns the globe by the 0.009 of auto-rotation and by
    nothing else. The same holds for a touch. *)
Theorem press_on_the_spot_stops (clientX clientY : float) (s : State) :
  is_finite clientX = true -> is_finite clientY = true ->
  let held := mousemove clientX clientY (mousedown clientX clientY s) in
  let touched := touchmove [{| x := clientX; y := clientY |}]
                   (touchstart [{| x := clientX; y := clientY |}] s) in
  (momentumX held = 0 /\ momentumY held = 0
   /\ earth_rotation_y (animate (mouseup held)) = earth_rotation_y held + 0 + 0.009
   /\ earth_rotation_x (animate (mouseup held)) = earth_rotation_x held + 0)
  /\ (momentumX touched = 0 /\ momentumY touched = 0
      /\ earth_rotation_y (animate (touchend touched))
         = earth_rotation_y touched + 0 + 0.009
      /\ earth_rotation_x (animate (touchend touched)) = earth_rotation_x touched + 0).
Proof.
  intros HX HY. destruct s.
  unfold mousemove, mousedown, touchmove, touchstart, mouseup, touchend, animate.
  assignments. rewrite !sub_self by assumption. repeat split; reflexivity.
Qed.

Lemma press_on_the_spot_stops_witness :
  momentumX (mousemove 120 80 (mousedown 120 80 flung)) = 0
  /\ momentumY (mousemove 120 80 (mousedown 120 80 flung)) = 0
  /\ earth_rotation_y (animate (mouseup (mousemove 120 80 (mousedown 120 80 flung))))
     = earth_rotation_y (mousemove 120 80 (mousedown 120 80 flung)) + 0 + 0.009.
Proof.
  destruct (press_on_the_spot_stops 120 80 flung eq_refl eq_refl)
    as [(H1 & H2 & H3 & _) _].
  split; [exact H1|]. split; [exact H2|exact H3].
Defined.

(** ** Rendering *)

Lemma dispatch_renders (e : Event) (s : State) :
  length (List.filter is_render (calls (dispatch e s)))
  = (length (List.filter is_render (calls s)) + (if is_frame e then 1 else 0))%nat.
Proof.
  destruct s, e; cbn [dispatch is_frame]; handler_cases;
    rewrite ?List.filter_app, ?length_app; cbn; lia.
Qed.

Lemma run_renders (events : list Event) (s : State) :
  length (List.filter is_render (calls (run events s)))
  = (length (List.filter is_render (calls s))
     + length (List.filter is_frame events))%nat.
Proof.
  revert s. induction events as [|e events IH]; intros s; [cbn; lia|].
  cbn [run fold_left List.filter]. fold (run events (dispatch e s)).
  rewrite IH, dispatch_renders. destruct (is_frame e); cbn; lia.
Qed.

(** X17. The scene is rendered by the frames and by nothing else: after
    any run of events from start-up, the number of render calls is one (the
    frame of start-up) plus the number of frames delivered; zooming,
    dragging, resizing or a texture arriving shows only at the next frame. *)
Theorem frames_render_once (innerWidth : float) (events : list Event) :
  length (List.filter is_render (calls (run events (startup innerWidth))))
  = S (length (List.filter is_frame events)).
Proof.
  rewrite run_renders.
  replace (length (List.filter is_render (calls (startup innerWidth)))) with 1%nat;
    [reflexivity|].
  unfold startup, resizeRenderer, loadTexture, animate, constructed.
  assignments. reflexivity.
Qed.
